(** * LoggerService: caller-location resolution and log dispatch

    A shallow embedding of [lib/services/LoggerService.ts] and the
    properties of its three parts: the one-shot initializer [init], the
    location resolver [getCallerLocation] and the dispatcher [log] with the
    public level methods built on it.

    Conventions of the embedding.
    - A JavaScript string is a [string] of ASCII code units.  The two
      places where the source consults Unicode tables ([toUpperCase] and
      the line terminators that [.] refuses in a regular expression) are
      written out for this range.
    - An optional value ([from?: string], [fileName], [lineNumber],
      [logPath]) is an [option]; JavaScript truthiness is written out
      where the source relies on it ([||], [&&], [if (x)]).
    - What the class obtains from its host (the stack-trace provider, the
      privileged command channel, the URL parser, the build mode, the
      imported settings constant) is a field of [World]; every theorem
      holds for every world unless it says otherwise.
    - Awaited calls are run to completion in program order; console
      output, command invocations and stack captures are recorded, in
      order, in the trace of the machine state. *)

From Stdlib Require Import String Ascii List Bool Arith NArith ZArith Lia.
From Stdlib Require Import DecimalString.
Import ListNotations.

Local Open Scope list_scope.
Local Open Scope string_scope.

Set Implicit Arguments.

(** ** Strings *)

Module JSString.

(** [s.length > 0], the truthiness of a string. *)
Definition nonempty (s : string) : bool :=
  match s with EmptyString => false | String _ _ => true end.

(** [s.startsWith(p)]. *)
Definition startsWith (s p : string) : bool := String.prefix p s.

(** [s.substring(n)]. *)
Fixpoint drop (n : nat) (s : string) : string :=
  match n, s with
  | O, _ => s
  | S n', String _ s' => drop n' s'
  | S _, EmptyString => EmptyString
  end.

(** [s.substring(0, n)]. *)
Fixpoint take (n : nat) (s : string) : string :=
  match n, s with
  | O, _ => EmptyString
  | S n', String c s' => String c (take n' s')
  | S _, EmptyString => EmptyString
  end.

Definition upper_char (c : ascii) : ascii :=
  let n := nat_of_ascii c in
  if (Nat.leb 97 n && Nat.leb n 122)%bool then ascii_of_nat (n - 32) else c.

(** [s.toUpperCase()] on ASCII code units. *)
Fixpoint toUpperCase (s : string) : string :=
  match s with
  | EmptyString => EmptyString
  | String c s' => String (upper_char c) (toUpperCase s')
  end.

(** Decimal rendering of a number that is a non-negative integer, as a
    template literal prints it. *)
Definition of_N (n : N) : string := NilZero.string_of_uint (N.to_uint n).

End JSString.

(** ** Regular expressions

    A backtracking matcher with the semantics the source's patterns rely
    on: leftmost match, greedy star, ordered alternation, one capture
    group.  The star is applied to a character class only, which is all
    the patterns of the source use. *)

Module RegExp.

Inductive atom : Type :=
| AChar (c : ascii)          (* a literal character *)
| ADot                       (* [.] : anything but a line terminator *)
| ASet (cs : list ascii).    (* [[...]] *)

Inductive regex : Type :=
| Empty
| Bol                        (* [^] *)
| Atom (a : atom)
| Star (a : atom)            (* [a*], greedy *)
| Seq (r1 r2 : regex)
| Alt (r1 r2 : regex)        (* [r1|r2], [r1] tried first *)
| Group (r : regex).         (* capture group 1 *)

Definition is_line_terminator (c : ascii) : bool :=
  let n := nat_of_ascii c in (Nat.eqb n 10 || Nat.eqb n 13)%bool.

Definition atom_matches (a : atom) (c : ascii) : bool :=
  match a with
  | AChar d => Ascii.eqb c d
  | ADot => negb (is_line_terminator c)
  | ASet cs => existsb (Ascii.eqb c) cs
  end.

(** A literal run of characters. *)
Fixpoint Lit (s : string) : regex :=
  match s with
  | EmptyString => Empty
  | String c s' => Seq (Atom (AChar c)) (Lit s')
  end.

(** [r1|r2|...] *)
Fixpoint AltOf (rs : list regex) : regex :=
  match rs with
  | [] => Empty
  | [r] => r
  | r :: rs' => Alt r (AltOf rs')
  end.

(** The span of capture group 1, as (start, end) indices. *)
Definition capture := option (nat * nat).

Section Matcher.
Variable R : Type.

(** The continuation receives the index reached, the input left and
    the capture. *)
Definition cont := nat -> string -> capture -> option R.

(** Greedy star: take one more character when possible and fall back
    to the continuation here when the rest fails. *)
Fixpoint star (a : atom) (pos : nat) (s : string) (cap : capture)
         (k : cont) : option R :=
  match s with
  | String c s' =>
      if atom_matches a c then
        match star a (S pos) s' cap k with
        | Some r => Some r
        | None => k pos s cap
        end
      else k pos s cap
  | EmptyString => k pos s cap
  end.

Fixpoint m (r : regex) (pos : nat) (s : string) (cap : capture)
         (k : cont) : option R :=
  match r with
  | Empty => k pos s cap
  | Bol => if Nat.eqb pos 0 then k pos s cap else None
  | Atom a =>
      match s with
      | String c s' => if atom_matches a c then k (S pos) s' cap else None
      | EmptyString => None
      end
  | Star a => star a pos s cap k
  | Seq r1 r2 => m r1 pos s cap (fun pos' s' cap' => m r2 pos' s' cap' k)
  | Alt r1 r2 =>
      match m r1 pos s cap k with
      | Some x => Some x
      | None => m r2 pos s cap k
      end
  | Group r1 =>
      m r1 pos s cap (fun pos' s' _ => k pos' s' (Some (pos, pos')))
  end.
End Matcher.

(** A successful match: where it starts and ends, and the capture. *)
Record result : Type := { index : nat; lastIndex : nat; group1 : capture }.

Definition match_at (r : regex) (pos : nat) (s : string) : option result :=
  m r pos s None
    (fun e _ cap => Some {| index := pos; lastIndex := e; group1 := cap |}).

(** Try every start position from the left. *)
Fixpoint search (r : regex) (pos : nat) (s : string) : option result :=
  match match_at r pos s with
  | Some x => Some x
  | None =>
      match s with
      | String _ s' => search r (S pos) s'
      | EmptyString => None
      end
  end.

(** [regex.exec(s)] for a pattern without flags. *)
Definition exec (r : regex) (s : string) : option result := search r 0 s.

(** [s.replace(r, by)] for a pattern without the global flag and a
    replacement without [$]: the first match is replaced. *)
Definition replace (r : regex) (by_ s : string) : string :=
  match exec r s with
  | Some x =>
      JSString.take (index x) s ++ by_ ++ JSString.drop (lastIndex x) s
  | None => s
  end.

(** [s.match(r)?.[1]]: the text of capture group 1, when there is a
    match and the group took part in it. *)
Definition match1 (r : regex) (s : string) : option string :=
  match exec r s with
  | Some {| group1 := Some (b, e) |} =>
      Some (JSString.take (e - b) (JSString.drop b s))
  | _ => None
  end.

End RegExp.

(** ** File-name normalization (getCallerLocation, lines 50-71) *)

Import RegExp.

(** [/^webpack-internal:\/\/\/\.\//] *)
Definition re_webpack_dot : regex := Seq Bol (Lit "webpack-internal:///./").

(** [/^webpack-internal:\/\/\//] *)
Definition re_webpack : regex := Seq Bol (Lit "webpack-internal:///").

(** [/^file:\/\//] *)
Definition re_file : regex := Seq Bol (Lit "file://").

(** [/^\/_next\/static\/chunks\//] *)
Definition re_next_chunks : regex := Seq Bol (Lit "/_next/static/chunks/").

(** The separator class [[/\\]]. *)
Definition sep : atom := ASet ["/"%char; "\"%char].

(** The directory names of the pattern, in its order. *)
Definition root_dirs : list string :=
  ["app"; "src"; "components"; "lib"; "hooks"; "constants"; "types"].

(** The pattern of line 67, written here with spaces between its parts:
    [.*  [/\\]  ( (?:app|src|components|lib|hooks|constants|types)  [/\\]  .* )] *)
Definition re_project_root : regex :=
  Seq (Star ADot)
    (Seq (Atom sep)
       (Group (Seq (AltOf (map Lit root_dirs))
                 (Seq (Atom sep) (Star ADot))))).

Section Normalize.

(** [new URL(s).pathname]; [None] when the constructor throws. *)
Variable URL_pathname : string -> option string.

(** Lines 53-56: the three prefix rewrites, in order. *)
Definition strip_loader_prefixes (fileName : string) : string :=
  replace re_file ""
    (replace re_webpack ""
       (replace re_webpack_dot "" fileName)).

(** Lines 58-63: the URL branch; a throwing parser leaves the name as
    it is (the catch block is empty). *)
Definition strip_url (fileName : string) : string :=
  if JSString.startsWith fileName "http" then
    match URL_pathname fileName with
    | Some path => replace re_next_chunks "" path
    | None => fileName
    end
  else fileName.

(** Lines 66-71: keep the captured suffix when the pattern matches and
    the capture is a non-empty string. *)
Definition project_relative (fileName : string) : string :=
  match match1 re_project_root fileName with
  | Some g => if JSString.nonempty g then g else fileName
  | None => fileName
  end.

Definition normalizeFileName (fileName : string) : string :=
  project_relative (strip_url (strip_loader_prefixes fileName)).

End Normalize.

(** A URL parser for the plain form [http(s)://host/path] without
    credentials, port, query, fragment, dot segments or characters that
    the parser would escape: the path component is what follows the
    host.  Used to instantiate [URL_pathname] on concrete inputs. *)
Module PlainURL.

Fixpoint from_slash (s : string) : option string :=
  match s with
  | EmptyString => None
  | String c s' => if Ascii.eqb c "/"%char then Some s else from_slash s'
  end.

Definition after_scheme (s : string) : option string :=
  if JSString.startsWith s "https://" then Some (JSString.drop 8 s)
  else if JSString.startsWith s "http://" then Some (JSString.drop 7 s)
  else None.

Definition pathname (s : string) : option string :=
  match after_scheme s with
  | Some rest =>
      match rest with
      | EmptyString => None
      | String c _ => if Ascii.eqb c "/"%char then None else from_slash rest
      end
  | None => None
  end.

End PlainURL.



(** ** The host and the machine *)

(** A value thrown or a rejection reason. *)
Inductive JSError : Type :=
| TypeError (message : string)
| HostError (message : string).

(** A frame of [StackTrace.get()]: the two fields the resolver reads. *)
Record StackFrame : Type :=
  { fileName : option string; lineNumber : option N }.

(** [LOGGER_SETTINGS], imported from [@/constants/logger_settings]. *)
Record LogSettings : Type :=
  { logPath : option string;
    logType : string;
    maxFileSize : Z;
    consoleLevel : string;
    fileLevel : string }.

(** The object literal built at lines 20-26; [None] in [log_path] is
    [null]. *)
Record InitSettings : Type :=
  { log_path : option string;
    log_type : string;
    max_file_size : Z;
    console_level : string;
    file_level : string }.

(** The argument object of an [invoke]. *)
Inductive Payload : Type :=
| InitArgs (settings : InitSettings)
| LogArgs (level message location : string).

(** The console primitives the class uses. *)
Inductive Console : Type :=
| console_log | console_info | console_warn | console_error
| console_debug | console_trace.

(** An argument of a console call. *)
Inductive Arg : Type :=
| AStr (s : string)
| AErr (e : JSError).

(** What the class does to its host, in order. *)
Inductive Event : Type :=
| ConsoleCall (c : Console) (args : list Arg)
| Invoke (cmd : string) (args : Payload)
| StackTraceGet.

(** The host.  The provider and the command channel answer as a function
    of everything that happened before the call, so successive calls may
    be answered differently. *)
Record World : Type :=
  { NODE_ENV : option string;
    window_defined : bool;
    LOGGER_SETTINGS : LogSettings;
    (** [StackTrace.get()]: the frames, or what it throws. *)
    StackTrace_get_result : list Event -> JSError + list StackFrame;
    (** [invoke(cmd, args)]: [None] resolves, [Some e] rejects with [e]. *)
    invoke_result : list Event -> string -> Payload -> option JSError;
    (** [new URL(s).pathname]: [None] when the constructor throws. *)
    URL_pathname : string -> option string }.

(** The fields of a [LoggerService] instance. *)
Record LoggerService : Type :=
  { initialized : bool; isDev : bool }.

Record Machine : Type :=
  { this : LoggerService; events : list Event }.

(** How a call ends. *)
Inductive Outcome (A : Type) : Type :=
| Returned (a : A)
| Thrown (e : JSError).

Arguments Returned {A} a.
Arguments Thrown {A} e.

(** A computation reads the host, changes the machine, and returns or
    throws. *)
Definition M (A : Type) : Type := World -> Machine -> Outcome A * Machine.

Definition ret {A} (a : A) : M A := fun _ st => (Returned a, st).

Definition bind {A B} (c : M A) (f : A -> M B) : M B :=
  fun w st =>
    match c w st with
    | (Returned a, st') => f a w st'
    | (Thrown e, st') => (Thrown e, st')
    end.

(** [try { c } catch (e) { h(e) }] *)
Definition try_catch {A} (c : M A) (h : JSError -> M A) : M A :=
  fun w st =>
    match c w st with
    | (Returned a, st') => (Returned a, st')
    | (Thrown e, st') => h e w st'
    end.

Definition throw {A} (e : JSError) : M A := fun _ st => (Thrown e, st).

Declare Scope js_scope.
Delimit Scope js_scope with js.
Notation "x <- c ;; k" := (bind c (fun x => k))
  (at level 61, c at next level, right associativity) : js_scope.
Notation "c ;; k" := (bind c (fun _ => k))
  (at level 61, right associativity) : js_scope.
Local Open Scope js_scope.

Definition ask {A} (f : World -> A) : M A := fun w st => (Returned (f w), st).

Definition get_this : M LoggerService := fun _ st => (Returned (this st), st).

(** [this.initialized = b] *)
Definition set_initialized (b : bool) : M unit :=
  fun _ st =>
    (Returned tt,
     {| this := {| initialized := b; isDev := isDev (this st) |};
        events := events st |}).

Definition emit (e : Event) (st : Machine) : Machine :=
  {| this := this st; events := (events st ++ [e])%list |}.

(** [console.c(...args)] *)
Definition console (c : Console) (args : list Arg) : M unit :=
  fun _ st => (Returned tt, emit (ConsoleCall c args) st).

(** [await invoke(cmd, args)] *)
Definition invoke (cmd : string) (args : Payload) : M unit :=
  fun w st =>
    match invoke_result w (events st) cmd args with
    | None => (Returned tt, emit (Invoke cmd args) st)
    | Some e => (Thrown e, emit (Invoke cmd args) st)
    end.

(** [await StackTrace.get()] *)
Definition StackTrace_get : M (list StackFrame) :=
  fun w st =>
    match StackTrace_get_result w (events st) with
    | inr frames => (Returned frames, emit StackTraceGet st)
    | inl e => (Thrown e, emit StackTraceGet st)
    end.

(** ** Truthiness of the optional strings and numbers *)

(** The value of an optional string when it is truthy: present and not
    empty. *)
Definition truthy (x : option string) : option string :=
  match x with
  | Some s => if JSString.nonempty s then Some s else None
  | None => None
  end.

(** [x || d] for an optional string [x]. *)
Definition or_else (x : option string) (d : string) : string :=
  match truthy x with Some s => s | None => d end.

(** [n || "?"] for an optional number rendered in a template literal:
    an absent number and zero are both falsy. *)
Definition line_or_question (n : option N) : string :=
  match n with
  | Some k => if N.eqb k 0 then "?" else JSString.of_N k
  | None => "?"
  end.

(** ** The level table (log, lines 88-97)

    [console_map] is an object literal, so [console_map[level]] finds the
    six own properties first and then whatever [Object.prototype] holds
    under that name. *)

(** The function properties of [Object.prototype]. *)
Inductive ObjectMethod : Type :=
| Object_constructor
| Object_hasOwnProperty
| Object_isPrototypeOf
| Object_propertyIsEnumerable
| Object_toLocaleString
| Object_toString
| Object_valueOf
| Object_defineGetter
| Object_defineSetter
| Object_lookupGetter
| Object_lookupSetter.

(** What a lookup in [console_map] can produce. *)
Inductive Handler : Type :=
| Bound (c : Console)            (* [console.c.bind(console)] *)
| Inherited (f : ObjectMethod)   (* a function of [Object.prototype] *)
| ObjectPrototype.               (* the prototype itself, under [__proto__] *)

(** The own properties of the literal, lines 89-94. *)
Definition console_map_own (key : string) : option Console :=
  if String.eqb key "log" then Some console_log
  else if String.eqb key "info" then Some console_info
  else if String.eqb key "warn" then Some console_warn
  else if String.eqb key "error" then Some console_error
  else if String.eqb key "debug" then Some console_debug
  else if String.eqb key "trace" then Some console_trace
  else None.

Definition Object_prototype_method (key : string) : option ObjectMethod :=
  if String.eqb key "constructor" then Some Object_constructor
  else if String.eqb key "hasOwnProperty" then Some Object_hasOwnProperty
  else if String.eqb key "isPrototypeOf" then Some Object_isPrototypeOf
  else if String.eqb key "propertyIsEnumerable"
       then Some Object_propertyIsEnumerable
  else if String.eqb key "toLocaleString" then Some Object_toLocaleString
  else if String.eqb key "toString" then Some Object_toString
  else if String.eqb key "valueOf" then Some Object_valueOf
  else if String.eqb key "__defineGetter__" then Some Object_defineGetter
  else if String.eqb key "__defineSetter__" then Some Object_defineSetter
  else if String.eqb key "__lookupGetter__" then Some Object_lookupGetter
  else if String.eqb key "__lookupSetter__" then Some Object_lookupSetter
  else None.

(** [console_map[key]]; [None] is [undefined]. *)
Definition console_map (key : string) : option Handler :=
  match console_map_own key with
  | Some c => Some (Bound c)
  | None =>
      match Object_prototype_method key with
      | Some f => Some (Inherited f)
      | None =>
          if String.eqb key "__proto__" then Some ObjectPrototype else None
      end
  end.

(** Whether a function of [Object.prototype] converts its receiver to an
    object before anything else can go wrong for a string argument; such
    a function throws when called without a receiver. *)
Definition needs_receiver (f : ObjectMethod) : bool :=
  match f with
  | Object_constructor | Object_isPrototypeOf | Object_toString => false
  | _ => true
  end.

(** [custom_console(line)]: a plain call, so the receiver is
    [undefined]. *)
Definition call (h : Handler) (line : string) : M unit :=
  match h with
  | Bound c => console c [AStr line]
  | Inherited f =>
      if needs_receiver f
      then throw (TypeError "Cannot convert undefined or null to object")
      else ret tt
  | ObjectPrototype => throw (TypeError "custom_console is not a function")
  end.

(** ** The class *)

(** Lines 20-26. *)
Definition init_settings (s : LogSettings) : InitSettings :=
  {| log_path := truthy (logPath s);
     log_type := logType s;
     max_file_size := maxFileSize s;
     console_level := consoleLevel s;
     file_level := fileLevel s |}.

(** [private async init()], lines 13-34. *)
Definition init : M unit :=
  self <- get_this ;;
  if initialized self then ret tt else
  has_window <- ask window_defined ;;
  if negb has_window then ret tt else
  try_catch
    (constants <- ask LOGGER_SETTINGS ;;
     let settings := init_settings constants in
     invoke "init_logger_cmd" (InitArgs settings) ;;
     set_initialized true ;;
     console console_log [AStr "Logger initialized successfully"])
    (fun error =>
       console console_error [AStr "Failed to initialize logger:"; AErr error]).

(** Lines 49-75: the body guarded by [if (callerFrame)]. *)
Definition describe_frame (callerFrame : StackFrame) : M string :=
  parse <- ask URL_pathname ;;
  let name := normalizeFileName parse (or_else (fileName callerFrame) "unknown") in
  let line := line_or_question (lineNumber callerFrame) in
  ret (name ++ ":" ++ line).

(** The position of the caller's frame, line 47. *)
Definition caller_depth : nat := 3.

(** Lines 43-79: the development branch.  [Some] is the value of the
    [return] at line 74; [None] means control reaches line 81. *)
Definition resolve_from_stack : M (option string) :=
  try_catch
    (stackframes <- StackTrace_get ;;
     (* 0: getCallerLocation, 1: log method, 2: public method, 3: caller *)
     match nth_error stackframes caller_depth with
     | Some callerFrame =>
         location <- describe_frame callerFrame ;;
         ret (Some location)
     | None => ret None
     end)
    (fun e =>
       console console_warn [AStr "Failed to resolve stack trace:"; AErr e] ;;
       ret None).

(** [private async getCallerLocation(from?)], lines 36-82. *)
Definition getCallerLocation (from : option string) : M string :=
  self <- get_this ;;
  match (if negb (isDev self) then truthy from else None) with
  | Some label => ret label
  | None =>
      resolved <- (if isDev self then resolve_from_stack else ret None) ;;
      match resolved with
      | Some location => ret location
      | None => ret (or_else from "unknown")
      end
  end.

(** The text passed to the console at line 99. *)
Definition console_line (level message : string) (from : option string)
  : string :=
  let prefix :=
    match truthy from with
    | Some label => "[" ++ label ++ "]"
    | None => ""
    end in
  "[" ++ JSString.toUpperCase level ++ "] " ++ prefix ++ " " ++ message.

(** [console_map[level] || console.log.bind(console)], lines 96-97. *)
Definition custom_console (level : string) : Handler :=
  match console_map level with
  | Some h => h
  | None => Bound console_log
  end.

(** [private async log(level, message, from?)], lines 84-110. *)
Definition log (level message : string) (from : option string) : M unit :=
  location <- getCallerLocation from ;;
  call (custom_console level) (console_line level message from) ;;
  try_catch
    (invoke "log_frontend_message" (LogArgs level message location))
    (fun error =>
       console console_error
         [AStr "Failed to send log to backend:"; AErr error]).

(** The public level methods, lines 112-130. *)
Definition info (message : string) (from : option string) : M unit :=
  log "info" message from.
Definition warn (message : string) (from : option string) : M unit :=
  log "warn" message from.
Definition error (message : string) (from : option string) : M unit :=
  log "error" message from.
Definition debug (message : string) (from : option string) : M unit :=
  log "debug" message from.
Definition trace (message : string) (from : option string) : M unit :=
  log "trace" message from.

(** [new LoggerService()], lines 6-11, together with the settling of
    the [init] it starts: the field initializers, then [void this.init()]
    run to its end.  The constructor does not await that call, so this is
    the instance as it stands once the call has settled with no other
    call on the instance in between; on a host without a window [init]
    returns before its first await and this is the instance as the
    constructor leaves it. *)
Definition new_LoggerService (w : World) : Machine :=
  let fresh :=
    {| this :=
         {| initialized := false;
            isDev :=
              match NODE_ENV w with
              | Some mode => String.eqb mode "development"
              | None => false
              end |};
       events := [] |} in
  snd (init w fresh).

(** ** The project-root pattern read directly

    What the pattern of line 67 selects, written as a scan of the name:
    used to state and prove what the match does on every input. *)

(** The two characters of the class [[/\\]]. *)
Definition is_sep (c : ascii) : bool := atom_matches sep c.

(** The text up to the first line terminator. *)
Fixpoint line_of (s : string) : string :=
  match s with
  | EmptyString => EmptyString
  | String c s' =>
      if is_line_terminator c then EmptyString else String c (line_of s')
  end.

(** [t] begins with the directory name [d] and a separator. *)
Definition follows_root (t d : string) : bool :=
  String.prefix d t
  && match JSString.drop (String.length d) t with
     | String c _ => is_sep c
     | EmptyString => false
     end.

(** [t] begins with one of the known directory names and a separator. *)
Definition starts_at_root (t : string) : bool :=
  existsb (follows_root t) root_dirs.

(** Within the first line of [s]: the text from the last separator that
    is followed by a known directory and a separator, that separator
    excluded, to the end of the line. *)
Fixpoint last_root (s : string) : option string :=
  match s with
  | EmptyString => None
  | String c s' =>
      if is_line_terminator c then None
      else
        match last_root s' with
        | Some g => Some g
        | None =>
            if is_sep c && starts_at_root s' then Some (line_of s') else None
        end
  end.

(** The same from the first start position that has one. *)
Fixpoint first_root (s : string) : option string :=
  match last_root s with
  | Some g => Some g
  | None =>
      match s with
      | EmptyString => None
      | String _ s' => first_root s'
      end
  end.

(** No character of [s] satisfies [p]. *)
Fixpoint none_of (p : ascii -> bool) (s : string) : bool :=
  match s with
  | EmptyString => true
  | String c s' => negb (p c) && none_of p s'
  end.

(** [s] has no line terminator. *)
Definition single_line (s : string) : bool := none_of is_line_terminator s.

(** ** Observations on a trace *)

Definition is_stack_capture (e : Event) : bool :=
  match e with StackTraceGet => true | _ => false end.

Definition is_invoke_of (cmd : string) (e : Event) : bool :=
  match e with Invoke c _ => String.eqb c cmd | _ => false end.

Definition is_console (e : Event) : bool :=
  match e with ConsoleCall _ _ => true | _ => false end.

Definition is_confirmation (e : Event) : bool :=
  match e with
  | ConsoleCall console_log [AStr s] =>
      String.eqb s "Logger initialized successfully"
  | _ => false
  end.

(** How often the stack-trace provider was called. *)
Definition stack_captures (t : list Event) : nat :=
  length (filter is_stack_capture t).

(** How often a command was sent over the channel. *)
Definition invocations (cmd : string) (t : list Event) : nat :=
  length (filter (is_invoke_of cmd) t).

(** How often the success line of [init] was printed. *)
Definition confirmations (t : list Event) : nat :=
  length (filter is_confirmation t).

(** The severities of the public methods and the level string each one
    passes to [log]. *)
Inductive Severity : Type :=
| sev_trace | sev_debug | sev_info | sev_warn | sev_error.

Definition level_of (s : Severity) : string :=
  match s with
  | sev_trace => "trace"
  | sev_debug => "debug"
  | sev_info => "info"
  | sev_warn => "warn"
  | sev_error => "error"
  end.

(** The console primitive of the same name. *)
Definition console_of (s : Severity) : Console :=
  match s with
  | sev_trace => console_trace
  | sev_debug => console_debug
  | sev_info => console_info
  | sev_warn => console_warn
  | sev_error => console_error
  end.

(** The public method of a severity. *)
Definition level_method (s : Severity)
  : string -> option string -> M unit :=
  match s with
  | sev_trace => trace
  | sev_debug => debug
  | sev_info => info
  | sev_warn => warn
  | sev_error => error
  end.

(** A call on the instance, and a sequence of calls run one after the
    other whatever each one's outcome. *)
Inductive Call : Type :=
| call_init
| call_log (level message : string) (from : option string).

Definition run_call (c : Call) : M unit :=
  match c with
  | call_init => init
  | call_log level message from => log level message from
  end.

Fixpoint run_calls (cs : list Call) (w : World) (st : Machine) : Machine :=
  match cs with
  | [] => st
  | c :: cs' => run_calls cs' w (snd (run_call c w st))
  end.

(** ** Sequences of public calls *)

Definition is_log_call (c : Call) : bool :=
  match c with call_log _ _ _ => true | call_init => false end.

(** A call of a public level method, as a call on the instance. *)
Definition public_call (c : Severity * string * option string) : Call :=
  match c with
  | (s, message, from) => call_log (level_of s) message from
  end.

(** The machine with the flag of its instance overwritten. *)
Definition with_initialized (b : bool) (st : Machine) : Machine :=
  {| this := {| initialized := b; isDev := isDev (this st) |};
     events := events st |}.

(** The level strings under which [console_map] yields something that
    cannot be called without a receiver, or cannot be called at all. *)
Definition throwing_levels : list string :=
  ["hasOwnProperty"; "propertyIsEnumerable"; "toLocaleString"; "valueOf";
   "__defineGetter__"; "__defineSetter__"; "__lookupGetter__";
   "__lookupSetter__"; "__proto__"].

(** The level strings under which it yields a function that returns
    without printing. *)
Definition silent_levels : list string :=
  ["constructor"; "isPrototypeOf"; "toString"].

(** The provider gave no usable frame: it threw, or it returned a
    sequence too short to hold a frame at the caller's depth. *)
Definition no_usable_frame (w : World) (st : Machine) : Prop :=
  match StackTrace_get_result w (events st) with
  | inl _ => True
  | inr frames => length frames <= caller_depth
  end.

(** The command [init] sends. *)
Definition init_request (w : World) : Payload :=
  InitArgs (init_settings (LOGGER_SETTINGS w)).

(** The instance with its flag set. *)
Definition mark_initialized (st : Machine) : Machine :=
  {| this := {| initialized := true; isDev := isDev (this st) |};
     events := events st |}.

(** The confirmation was printed once on an initialized instance and
    never on one that is not. *)
Definition confirmed_once (st : Machine) : Prop :=
  confirmations (events st) = if initialized (this st) then 1 else 0.

(** Concrete hosts and inputs for the examples. *)
Module Examples.

Definition settings : LogSettings :=
  {| logPath := Some "/var/log/app.log";
     logType := "file";
     maxFileSize := 1048576;
     consoleLevel := "info";
     fileLevel := "debug" |}.

Definition caller : StackFrame :=
  {| fileName := Some "webpack-internal:///./components/Button.tsx";
     lineNumber := Some 42%N |}.

Definition frames : list StackFrame :=
  let inner := {| fileName := Some "LoggerService.ts"; lineNumber := Some 1%N |} in
  [inner; inner; inner; caller].

(** A host with a working provider and a reachable backend. *)
Definition host (mode : string) : World :=
  {| NODE_ENV := Some mode;
     window_defined := true;
     LOGGER_SETTINGS := settings;
     StackTrace_get_result := fun _ => inr frames;
     invoke_result := fun _ _ _ => None;
     URL_pathname := PlainURL.pathname |}.

(** A host whose provider throws and whose backend rejects everything. *)
Definition broken_host (mode : string) : World :=
  {| NODE_ENV := Some mode;
     window_defined := true;
     LOGGER_SETTINGS := settings;
     StackTrace_get_result := fun _ => inl (HostError "no stack");
     invoke_result := fun _ _ _ => Some (HostError "backend unreachable");
     URL_pathname := PlainURL.pathname |}.

Definition fresh (dev : bool) : Machine :=
  {| this := {| initialized := false; isDev := dev |}; events := [] |}.

Definition ready (dev : bool) : Machine :=
  {| this := {| initialized := true; isDev := dev |}; events := [] |}.

End Examples.

(** * Properties *)

(** Unfolds the monad and the host operations in the goal. *)
Ltac run :=
  cbv beta delta
    [bind ret throw try_catch ask get_this set_initialized console invoke
     StackTrace_get emit call] in *;
  cbn beta iota zeta in *.

(** ** Normalization on the reference inputs *)

Section NormalizeTable.

Variable parse : string -> option string.

Lemma normalize_webpack_button :
  normalizeFileName parse "webpack-internal:///./components/Button.tsx"
  = "components/Button.tsx".
Proof. reflexivity. Qed.

Lemma normalize_http_via_parser (url path : string) :
  parse url = Some path ->
  JSString.startsWith url "http" = true ->
  strip_loader_prefixes url = url ->
  normalizeFileName parse url
  = project_relative (replace re_next_chunks "" path).
Proof.
  intros Hparse Hhttp Hstrip.
  unfold normalizeFileName, strip_url.
  rewrite Hstrip, Hhttp, Hparse. reflexivity.
Qed.

End NormalizeTable.

(** C1.  The frame file reference
    [file:///home/user/project/src/hooks/useAuth.ts] does not normalize to
    [src/hooks/useAuth.ts]: the leading [.*] of the pattern is greedy, so
    the capture starts at the last known directory of the path and the
    result is [hooks/useAuth.ts], whatever the URL parser of the host. *)
Theorem normalize_src_hooks_keeps_last_directory :
  forall parse : string -> option string,
    normalizeFileName parse "file:///home/user/project/src/hooks/useAuth.ts"
    = "hooks/useAuth.ts"
    /\ normalizeFileName parse "file:///home/user/project/src/hooks/useAuth.ts"
       <> "src/hooks/useAuth.ts".
Proof.
  intro parse. split; [reflexivity | discriminate].
Qed.

(** C6.  [webpack-internal:///./components/Button.tsx] normalizes to
    [components/Button.tsx]; given that the host's URL parser returns the
    path components [/_next/static/chunks/app/page.js] and
    [/vendor/react.js] of the two HTTPS references,
    [https://app.example/_next/static/chunks/app/page.js] normalizes to
    [app/page.js] and [https://cdn.example/vendor/react.js] to
    [/vendor/react.js]. *)
Theorem normalize_table :
  forall parse : string -> option string,
    parse "https://app.example/_next/static/chunks/app/page.js"
    = Some "/_next/static/chunks/app/page.js" ->
    parse "https://cdn.example/vendor/react.js" = Some "/vendor/react.js" ->
    normalizeFileName parse "webpack-internal:///./components/Button.tsx"
    = "components/Button.tsx"
    /\ normalizeFileName parse
         "https://app.example/_next/static/chunks/app/page.js"
       = "app/page.js"
    /\ normalizeFileName parse "https://cdn.example/vendor/react.js"
       = "/vendor/react.js".
Proof.
  intros parse Happ Hcdn. split; [apply normalize_webpack_button | split].
  - rewrite (normalize_http_via_parser parse (url := _) Happ);
      reflexivity.
  - rewrite (normalize_http_via_parser parse (url := _) Hcdn);
      reflexivity.
Qed.

Lemma normalize_table_witness :
  normalizeFileName PlainURL.pathname
    "webpack-internal:///./components/Button.tsx"
  = "components/Button.tsx"
  /\ normalizeFileName PlainURL.pathname
       "https://app.example/_next/static/chunks/app/page.js"
     = "app/page.js"
  /\ normalizeFileName PlainURL.pathname "https://cdn.example/vendor/react.js"
     = "/vendor/react.js".
Proof.
  apply (normalize_table PlainURL.pathname); reflexivity.
Defined.

(** ** The location resolver *)

Section Resolver.

Variable w : World.

Lemma truthy_nonempty (label : string) :
  label <> "" -> truthy (Some label) = Some label.
Proof.
  destruct label; [congruence | reflexivity].
Qed.

Lemma or_else_truthy (from : option string) (label d : string) :
  truthy from = Some label -> or_else from d = label.
Proof.
  unfold or_else. intros ->. reflexivity.
Qed.

(** The development branch never throws: it captures the stack once and
    then either describes the caller's frame or reports nothing. *)
Lemma resolve_from_stack_cases (st : Machine) :
  match StackTrace_get_result w (events st) with
  | inl e =>
      resolve_from_stack w st
      = (Returned None,
         emit (ConsoleCall console_warn
                 [AStr "Failed to resolve stack trace:"; AErr e])
           (emit StackTraceGet st))
  | inr frames =>
      match nth_error frames caller_depth with
      | Some frame =>
          resolve_from_stack w st
          = (Returned
               (Some (normalizeFileName (URL_pathname w)
                        (or_else (fileName frame) "unknown")
                      ++ ":" ++ line_or_question (lineNumber frame))),
             emit StackTraceGet st)
      | None =>
          resolve_from_stack w st = (Returned None, emit StackTraceGet st)
      end
  end.
Proof.
  unfold resolve_from_stack, describe_frame. run.
  destruct (StackTrace_get_result w (events st)) as [e | frames];
    [reflexivity |].
  destruct (nth_error frames caller_depth); reflexivity.
Qed.

Lemma resolve_from_stack_returns (st : Machine) :
  exists r st', resolve_from_stack w st = (Returned r, st').
Proof.
  pose proof (resolve_from_stack_cases st) as H.
  destruct (StackTrace_get_result w (events st)) as [e | frames];
    [eauto |].
  destruct (nth_error frames caller_depth); eauto.
Qed.

Lemma getCallerLocation_returns (from : option string) (st : Machine) :
  exists location st',
    getCallerLocation from w st = (Returned location, st').
Proof.
  unfold getCallerLocation. run.
  destruct (isDev (this st)); cbn.
  - destruct (resolve_from_stack_returns st) as (r & st' & ->).
    destruct r; eauto.
  - destruct (truthy from); eauto.
Qed.

(** The resolver changes no field of the instance. *)
Lemma getCallerLocation_this (from : option string) (st : Machine) :
  this (snd (getCallerLocation from w st)) = this st.
Proof.
  unfold getCallerLocation. run.
  destruct (isDev (this st)); cbn.
  - pose proof (resolve_from_stack_cases st) as H.
    destruct (StackTrace_get_result w (events st)) as [e | frames].
    + rewrite H. reflexivity.
    + destruct (nth_error frames caller_depth); rewrite H; reflexivity.
  - destruct (truthy from); reflexivity.
Qed.

(** In production the resolver touches nothing and returns the label or
    ["unknown"]. *)
Lemma getCallerLocation_production (from : option string) (st : Machine) :
  isDev (this st) = false ->
  getCallerLocation from w st = (Returned (or_else from "unknown"), st).
Proof.
  intro Hprod. unfold getCallerLocation, or_else. run.
  rewrite Hprod. cbn. destruct (truthy from); reflexivity.
Qed.

End Resolver.

(** C2.  In production mode (the instance's [isDev] is false) and for
    every non-empty explicit label, the resolver returns the label
    verbatim and leaves the machine as it was: no event is recorded, so
    the stack-trace provider was not called and its call counter is
    unchanged. *)
Theorem production_label_short_circuit :
  forall (w : World) (st : Machine) (label : string),
    isDev (this st) = false ->
    label <> "" ->
    getCallerLocation (Some label) w st = (Returned label, st)
    /\ stack_captures (events (snd (getCallerLocation (Some label) w st)))
       = stack_captures (events st).
Proof.
  intros w st label Hprod Hlabel.
  rewrite (getCallerLocation_production w (Some label) st Hprod).
  rewrite (or_else_truthy _ "unknown" (truthy_nonempty Hlabel)).
  split; reflexivity.
Qed.

Lemma production_label_short_circuit_witness :
  getCallerLocation (Some "profile-form")
    (Examples.host "production") (Examples.ready false)
  = (Returned "profile-form", Examples.ready false)
  /\ stack_captures
       (events (snd (getCallerLocation (Some "profile-form")
                       (Examples.host "production") (Examples.ready false))))
     = stack_captures (events (Examples.ready false)).
Proof.
  apply (production_label_short_circuit
           (Examples.host "production") (Examples.ready false)
           (label := "profile-form")).
  - reflexivity.
  - discriminate.
Defined.

(** C3.  The resolver never throws; and whenever stack introspection
    throws or the captured sequence is too short to hold the caller's
    frame, it returns the explicit label when one was supplied (present
    and not empty) and ["unknown"] otherwise. *)
Theorem getCallerLocation_fallback :
  forall (w : World) (st : Machine) (from : option string),
    (exists location st',
        getCallerLocation from w st = (Returned location, st'))
    /\ (no_usable_frame w st ->
        fst (getCallerLocation from w st)
        = Returned (or_else from "unknown")).
Proof.
  intros w st from. split; [apply getCallerLocation_returns |].
  unfold no_usable_frame. intro Hnone.
  destruct (isDev (this st)) eqn:Hdev.
  - unfold getCallerLocation. run. rewrite Hdev. cbn.
    pose proof (resolve_from_stack_cases w st) as H.
    destruct (StackTrace_get_result w (events st)) as [e | frames].
    + rewrite H. reflexivity.
    + apply nth_error_None in Hnone. rewrite Hnone in H.
      rewrite H. reflexivity.
  - rewrite (getCallerLocation_production w from st Hdev). reflexivity.
Qed.

Lemma getCallerLocation_fallback_witness :
  (no_usable_frame (Examples.broken_host "development") (Examples.ready true)
   /\ fst (getCallerLocation None
             (Examples.broken_host "development") (Examples.ready true))
      = Returned "unknown")
  /\ (no_usable_frame (Examples.broken_host "development") (Examples.ready true)
      /\ fst (getCallerLocation (Some "foo.ts:12")
                (Examples.broken_host "development") (Examples.ready true))
         = Returned "foo.ts:12").
Proof.
  split; (split; [exact I |]).
  - apply (proj2 (getCallerLocation_fallback
                    (Examples.broken_host "development")
                    (Examples.ready true) None)).
    exact I.
  - apply (proj2 (getCallerLocation_fallback
                    (Examples.broken_host "development")
                    (Examples.ready true) (Some "foo.ts:12"))).
    exact I.
Defined.

(** C7.  In development mode the resolver captures the stack whether or
    not a label was supplied; and when the provider returns a sequence
    with a frame at the caller's depth, the result is the frame's
    normalized file name, a colon, and the frame's line number in
    decimal, or [?] when the line number is unavailable (absent or
    zero), whatever the label. *)
Theorem development_prefers_stack :
  forall (w : World) (st : Machine) (from : option string),
    isDev (this st) = true ->
    (exists rest,
        events (snd (getCallerLocation from w st))
        = (events st ++ StackTraceGet :: rest)%list)
    /\ (forall frames frame,
           StackTrace_get_result w (events st) = inr frames ->
           nth_error frames caller_depth = Some frame ->
           getCallerLocation from w st
           = (Returned
                (normalizeFileName (URL_pathname w)
                   (or_else (fileName frame) "unknown")
                 ++ ":" ++ line_or_question (lineNumber frame)),
              emit StackTraceGet st)
           /\ (lineNumber frame = None ->
               line_or_question (lineNumber frame) = "?")
           /\ (forall n, lineNumber frame = Some n -> n <> 0%N ->
                         line_or_question (lineNumber frame)
                         = JSString.of_N n)).
Proof.
  intros w st from Hdev.
  assert (Hrun : getCallerLocation from w st
                 = match resolve_from_stack w st with
                   | (Returned (Some location), st') => (Returned location, st')
                   | (Returned None, st') =>
                       (Returned (or_else from "unknown"), st')
                   | (Thrown e, st') => (Thrown e, st')
                   end).
  { unfold getCallerLocation. run. rewrite Hdev. cbn.
    destruct (resolve_from_stack w st) as [[[location |] | e] st'];
      reflexivity. }
  pose proof (resolve_from_stack_cases w st) as H.
  split.
  - rewrite Hrun.
    destruct (StackTrace_get_result w (events st)) as [e | frames].
    + rewrite H. cbn. rewrite <- app_assoc. eexists. reflexivity.
    + destruct (nth_error frames caller_depth); rewrite H; cbn;
        exists []; reflexivity.
  - intros frames frame Hframes Hframe.
    rewrite Hframes, Hframe in H. rewrite Hrun, H.
    split; [reflexivity | split].
    + intros ->. reflexivity.
    + intros n -> Hn. cbn. destruct (N.eqb_spec n 0); [contradiction |].
      reflexivity.
Qed.

Lemma development_prefers_stack_witness :
  getCallerLocation (Some "profile-form")
    (Examples.host "development") (Examples.ready true)
  = (Returned "components/Button.tsx:42",
     emit StackTraceGet (Examples.ready true)).
Proof.
  apply (proj2 (development_prefers_stack
                  (Examples.host "development") (Examples.ready true)
                  (Some "profile-form") eq_refl)
           Examples.frames Examples.caller eq_refl eq_refl).
Defined.

(** ** The dispatcher *)

Section Dispatcher.

Variable w : World.

Lemma filter_snoc {A} (f : A -> bool) (l : list A) (x : A) :
  filter f (l ++ [x])%list
  = (filter f l ++ (if f x then [x] else []))%list.
Proof.
  rewrite filter_app. reflexivity.
Qed.

(** An event that a filter rejects does not change its count. *)
Lemma count_emit_other (f : Event -> bool) (e : Event) (st : Machine) :
  f e = false ->
  length (filter f (events (emit e st))) = length (filter f (events st)).
Proof.
  intro He. cbn. rewrite filter_snoc, He, app_nil_r. reflexivity.
Qed.

Lemma count_emit_one (f : Event -> bool) (e : Event) (st : Machine) :
  f e = true ->
  length (filter f (events (emit e st))) = S (length (filter f (events st))).
Proof.
  intro He. cbn. rewrite filter_snoc, He, length_app. cbn. lia.
Qed.

(** The resolver records stack captures and warnings only. *)
Lemma getCallerLocation_quiet (f : Event -> bool) (from : option string)
      (st : Machine) :
  f StackTraceGet = false ->
  (forall args, f (ConsoleCall console_warn args) = false) ->
  length (filter f (events (snd (getCallerLocation from w st))))
  = length (filter f (events st)).
Proof.
  intros Hcapture Hwarn.
  destruct (isDev (this st)) eqn:Hdev.
  - unfold getCallerLocation. run. rewrite Hdev. cbn.
    pose proof (resolve_from_stack_cases w st) as H.
    destruct (StackTrace_get_result w (events st)) as [e | frames].
    + rewrite H. cbn [snd].
      rewrite count_emit_other by apply Hwarn.
      apply count_emit_other, Hcapture.
    + destruct (nth_error frames caller_depth); rewrite H; cbn [snd];
        apply count_emit_other, Hcapture.
  - rewrite (getCallerLocation_production w from st Hdev). reflexivity.
Qed.

(** The dispatcher once the resolver has returned. *)
Lemma log_after_resolver (level message location : string)
      (from : option string) (st st1 : Machine) :
  getCallerLocation from w st = (Returned location, st1) ->
  log level message from w st
  = match call (custom_console level) (console_line level message from) w st1
    with
    | (Returned _, st2) =>
        let record := LogArgs level message location in
        let st3 := emit (Invoke "log_frontend_message" record) st2 in
        match invoke_result w (events st2) "log_frontend_message" record with
        | None => (Returned tt, st3)
        | Some e =>
            (Returned tt,
             emit (ConsoleCall console_error
                     [AStr "Failed to send log to backend:"; AErr e]) st3)
        end
    | (Thrown e, st2) => (Thrown e, st2)
    end.
Proof.
  intro Hloc. unfold log.
  unfold bind at 1. rewrite Hloc.
  unfold bind at 1.
  destruct (call (custom_console level) (console_line level message from)
              w st1) as [[[] | e] st2]; [| reflexivity].
  unfold try_catch, invoke.
  destruct (invoke_result w (events st2) "log_frontend_message"
              (LogArgs level message location)); reflexivity.
Qed.

Lemma custom_console_of_severity (s : Severity) :
  custom_console (level_of s) = Bound (console_of s).
Proof.
  destruct s; reflexivity.
Qed.

Lemma level_method_is_log (s : Severity) (message : string)
      (from : option string) :
  level_method s message from = log (level_of s) message from.
Proof.
  destruct s; reflexivity.
Qed.

(** A level that names nothing in [console_map], own or inherited, gets
    the default handler. *)
Lemma custom_console_default (level : string) :
  console_map level = None -> custom_console level = Bound console_log.
Proof.
  unfold custom_console. intros ->. reflexivity.
Qed.

(** A handler bound to a console primitive prints the line and
    returns. *)
Lemma log_bound (level message : string) (from : option string)
      (c : Console) (st : Machine) :
  custom_console level = Bound c ->
  exists location st1,
    getCallerLocation from w st = (Returned location, st1)
    /\ let st2 :=
         emit (ConsoleCall c [AStr (console_line level message from)]) st1 in
       let record := LogArgs level message location in
       let st3 := emit (Invoke "log_frontend_message" record) st2 in
       log level message from w st
       = (Returned tt,
          match invoke_result w (events st2) "log_frontend_message" record
          with
          | None => st3
          | Some e =>
              emit (ConsoleCall console_error
                      [AStr "Failed to send log to backend:"; AErr e]) st3
          end).
Proof.
  intro Hc.
  destruct (getCallerLocation_returns w from st) as (location & st1 & Hloc).
  exists location, st1. split; [exact Hloc |].
  rewrite (log_after_resolver level message from st Hloc), Hc.
  cbn.
  destruct (invoke_result w _ "log_frontend_message"
              (LogArgs level message location)); reflexivity.
Qed.

(** The dispatcher changes no field of the instance, whatever the
    level. *)
Lemma log_this (level message : string) (from : option string)
      (st : Machine) :
  this (snd (log level message from w st)) = this st.
Proof.
  destruct (getCallerLocation_returns w from st) as (location & st1 & Hloc).
  rewrite (log_after_resolver level message from st Hloc).
  pose proof (getCallerLocation_this w from st) as Hthis.
  rewrite Hloc in Hthis. cbn in Hthis.
  destruct (custom_console level) as [c | f |]; cbn.
  - destruct (invoke_result w _ "log_frontend_message"
                (LogArgs level message location)); exact Hthis.
  - destruct (needs_receiver f); cbn; [exact Hthis |].
    destruct (invoke_result w _ "log_frontend_message"
                (LogArgs level message location)); exact Hthis.
  - exact Hthis.
Qed.

(** Whatever the level string, nothing that happens at or after the
    submission makes [log] throw: it returns, or it stopped at the
    console call, which only a handler inherited from [Object.prototype]
    can cause, and then nothing was submitted. *)
Lemma log_throws_only_at_console (level message : string)
      (from : option string) (st : Machine) :
  fst (log level message from w st) = Returned tt
  \/ (invocations "log_frontend_message"
        (events (snd (log level message from w st)))
      = invocations "log_frontend_message" (events st)
      /\ exists h, console_map level = Some h /\ forall c, h <> Bound c).
Proof.
  destruct (getCallerLocation_returns w from st) as (location & st1 & Hloc).
  pose proof (getCallerLocation_quiet (is_invoke_of "log_frontend_message")
                from st eq_refl (fun _ => eq_refl)) as Hquiet.
  rewrite Hloc in Hquiet. cbn [snd] in Hquiet.
  rewrite (log_after_resolver level message from st Hloc).
  unfold custom_console.
  destruct (console_map level) as [[c | f |] |]; cbn [call].
  - left. unfold console.
    destruct (invoke_result w _ "log_frontend_message"
                (LogArgs level message location)); reflexivity.
  - destruct (needs_receiver f); unfold throw, ret.
    + right. split; [exact Hquiet |].
      exists (Inherited f). split; [reflexivity | discriminate].
    + left.
      destruct (invoke_result w _ "log_frontend_message"
                  (LogArgs level message location)); reflexivity.
  - right. unfold throw. split; [exact Hquiet |].
    exists ObjectPrototype. split; [reflexivity | discriminate].
  - left. unfold console.
    destruct (invoke_result w _ "log_frontend_message"
                (LogArgs level message location)); reflexivity.
Qed.

End Dispatcher.

(** For each of the severities of the public methods, every message
    and every optional label, on every host: the level method is [log]
    at that level; [log] returns and never throws, whether the backend
    accepts or rejects the record; it sends the record exactly once and
    keeps nothing of it in the instance; and when the submission is
    rejected, the run ends with one [console.error] line carrying the
    error, right after the single submission.  For a level string of any
    other origin, [log] still never throws at or after the submission:
    it returns unless the level names a property inherited from
    [Object.prototype], in which case it stops at the console call. *)
Theorem log_always_completes :
  forall (w : World) (st : Machine) (s : Severity) (message : string)
         (from : option string),
    level_method s message from = log (level_of s) message from
    /\ (forall level : string,
           fst (log level message from w st) = Returned tt
           \/ (invocations "log_frontend_message"
                 (events (snd (log level message from w st)))
               = invocations "log_frontend_message" (events st)
               /\ exists h,
                   console_map level = Some h /\ forall c, h <> Bound c))
    /\ fst (log (level_of s) message from w st) = Returned tt
    /\ this (snd (log (level_of s) message from w st)) = this st
    /\ invocations "log_frontend_message"
         (events (snd (log (level_of s) message from w st)))
       = S (invocations "log_frontend_message" (events st))
    /\ exists location st1,
        getCallerLocation from w st = (Returned location, st1)
        /\ let line := console_line (level_of s) message from in
           let st2 := emit (ConsoleCall (console_of s) [AStr line]) st1 in
           let record := LogArgs (level_of s) message location in
           let st3 := emit (Invoke "log_frontend_message" record) st2 in
           match invoke_result w (events st2) "log_frontend_message" record
           with
           | None => snd (log (level_of s) message from w st) = st3
           | Some e =>
               snd (log (level_of s) message from w st)
               = emit (ConsoleCall console_error
                         [AStr "Failed to send log to backend:"; AErr e]) st3
           end.
Proof.
  intros w st s message from.
  destruct (log_bound w (level_of s) message from st
              (custom_console_of_severity s))
    as (location & st1 & Hloc & Hlog).
  cbv zeta in Hlog.
  pose proof (getCallerLocation_quiet w (is_invoke_of "log_frontend_message")
                from st eq_refl (fun _ => eq_refl)) as Hquiet.
  rewrite Hloc in Hquiet. cbn [snd] in Hquiet.
  split; [apply level_method_is_log |].
  split; [intro level; apply log_throws_only_at_console |].
  split; [rewrite Hlog; reflexivity |].
  split; [apply log_this |].
  split.
  - rewrite Hlog. cbn [snd]. unfold invocations.
    destruct (invoke_result w _ "log_frontend_message"
                (LogArgs (level_of s) message location)).
    + rewrite count_emit_other by reflexivity.
      rewrite count_emit_one by reflexivity.
      rewrite count_emit_other by reflexivity.
      now rewrite Hquiet.
    + rewrite count_emit_one by reflexivity.
      rewrite count_emit_other by reflexivity.
      now rewrite Hquiet.
  - exists location, st1. split; [exact Hloc |]. cbv zeta.
    rewrite Hlog. cbn [snd].
    destruct (invoke_result w _ "log_frontend_message"
                (LogArgs (level_of s) message location)); reflexivity.
Qed.

(** C4.  [log] does not complete for every level.  At the level
    ["valueOf"], and likewise at ["__proto__"], for every message, every
    label and every host, and whatever the backend would answer, the
    console call of line 99 throws a [TypeError]; no [try] encloses that
    call (the one of lines 101-109 covers the submission only), so the
    error leaves [log].  The run stops there, in the state the resolver
    left: nothing was printed by the dispatcher and no record was
    submitted. *)
Theorem log_raises_at_inherited_level :
  forall (w : World) (st : Machine) (message : string)
         (from : option string),
    exists location st1,
      getCallerLocation from w st = (Returned location, st1)
      /\ log "valueOf" message from w st
         = (Thrown (TypeError "Cannot convert undefined or null to object"),
            st1)
      /\ log "__proto__" message from w st
         = (Thrown (TypeError "custom_console is not a function"), st1).
Proof.
  intros w st message from.
  destruct (getCallerLocation_returns w from st) as (location & st1 & Hloc).
  exists location, st1. split; [exact Hloc |].
  rewrite !(log_after_resolver w _ message from st Hloc).
  split; reflexivity.
Qed.

(** C8.  A level string that names a property inherited from
    [Object.prototype] does not reach the default channel: under
    ["constructor"] the table yields the [Object] function, which is
    called in place of a console primitive, so that no line is printed
    between the resolver and the submission; and under ["valueOf"] or
    ["__proto__"] the call at line 99 throws a [TypeError] out of [log]
    before the record is submitted. *)
Theorem log_inherited_level :
  forall (w : World) (st : Machine) (message : string)
         (from : option string),
    custom_console "constructor" = Inherited Object_constructor
    /\ (exists location st1,
           getCallerLocation from w st = (Returned location, st1)
           /\ let record := LogArgs "constructor" message location in
              let st3 := emit (Invoke "log_frontend_message" record) st1 in
              log "constructor" message from w st
              = (Returned tt,
                 match
                   invoke_result w (events st1) "log_frontend_message" record
                 with
                 | None => st3
                 | Some e =>
                     emit (ConsoleCall console_error
                             [AStr "Failed to send log to backend:"; AErr e])
                       st3
                 end))
    /\ fst (log "valueOf" message from w st)
       = Thrown (TypeError "Cannot convert undefined or null to object")
    /\ invocations "log_frontend_message"
         (events (snd (log "valueOf" message from w st)))
       = invocations "log_frontend_message" (events st)
    /\ fst (log "__proto__" message from w st)
       = Thrown (TypeError "custom_console is not a function").
Proof.
  intros w st message from.
  destruct (getCallerLocation_returns w from st) as (location & st1 & Hloc).
  pose proof (getCallerLocation_quiet w (is_invoke_of "log_frontend_message")
                from st eq_refl (fun _ => eq_refl)) as Hquiet.
  rewrite !(log_after_resolver w _ message from st Hloc).
  rewrite Hloc in Hquiet. cbn [snd] in Hquiet.
  split; [reflexivity |]. split; [| split; [reflexivity | split]].
  - exists location, st1. split; [exact Hloc |]. cbn.
    destruct (invoke_result w (events st1) "log_frontend_message"
                (LogArgs "constructor" message location)); reflexivity.
  - exact Hquiet.
  - reflexivity.
Qed.

(** X1.  The dispatcher on the levels it was written for, and on every level
    that names nothing in [Object.prototype]: each of the five
    severities is handled by the console primitive of its name, a level
    unknown to the table by [console.log], and in both cases [log]
    prints the line and returns. *)
Theorem log_routes_by_level :
  forall (w : World) (st : Machine) (level message : string)
         (from : option string),
    (forall s : Severity, custom_console (level_of s) = Bound (console_of s))
    /\ (console_map level = None ->
        custom_console level = Bound console_log
        /\ fst (log level message from w st) = Returned tt
        /\ exists location st1,
            getCallerLocation from w st = (Returned location, st1)
            /\ exists rest,
                events (snd (log level message from w st))
                = (events st1
                   ++ ConsoleCall console_log
                        [AStr (console_line level message from)] :: rest)%list).
Proof.
  intros w st level message from.
  split; [apply custom_console_of_severity |].
  intro Hnone.
  pose proof (custom_console_default level Hnone) as Hdefault.
  destruct (log_bound w level message from st Hdefault)
    as (location & st1 & Hloc & Hlog).
  cbv zeta in Hlog.
  split; [exact Hdefault |]. split; [rewrite Hlog; reflexivity |].
  exists location, st1. split; [exact Hloc |].
  rewrite Hlog. cbn [snd].
  destruct (invoke_result w _ "log_frontend_message"
              (LogArgs level message location));
    cbn; rewrite <- ?app_assoc; eexists; reflexivity.
Qed.

Lemma log_routes_by_level_witness :
  custom_console "verbose" = Bound console_log
  /\ log "verbose" "Saved" None
       (Examples.host "production") (Examples.ready false)
     = (Returned tt,
        {| this := this (Examples.ready false);
           events :=
             [ConsoleCall console_log [AStr "[VERBOSE]  Saved"];
              Invoke "log_frontend_message"
                (LogArgs "verbose" "Saved" "unknown")] |}).
Proof.
  split.
  - apply (proj2 (log_routes_by_level
                    (Examples.host "production") (Examples.ready false)
                    "verbose" "Saved" None) eq_refl).
  - reflexivity.
Defined.

Lemma append_assoc (a b c : string) : (a ++ b) ++ c = a ++ (b ++ c).
Proof.
  induction a as [| x a IH]; cbn; [reflexivity | now rewrite IH].
Qed.

(** C10.  An empty explicit label behaves as an absent one: the resolver
    and the dispatcher run identically on both; in production the empty
    label is not returned by the short-circuit but replaced by
    ["unknown"]; and the console line has no label bracket. *)
Theorem empty_label_is_absent :
  forall (w : World) (st : Machine) (level message : string),
    getCallerLocation (Some "") w st = getCallerLocation None w st
    /\ log level message (Some "") w st = log level message None w st
    /\ (isDev (this st) = false ->
        getCallerLocation (Some "") w st = (Returned "unknown", st))
    /\ console_line level message (Some "")
       = "[" ++ JSString.toUpperCase level ++ "]  " ++ message.
Proof.
  intros w st level message.
  split; [reflexivity |]. split; [reflexivity |]. split.
  - intro Hprod.
    apply (getCallerLocation_production w (Some "") st Hprod).
  - reflexivity.
Qed.

Lemma empty_label_is_absent_witness :
  getCallerLocation (Some "")
    (Examples.host "production") (Examples.ready false)
  = (Returned "unknown", Examples.ready false).
Proof.
  apply (proj1 (proj2 (proj2 (empty_label_is_absent
                                (Examples.host "production")
                                (Examples.ready false) "info" "Saved")))).
  reflexivity.
Defined.

(** ** The initializer *)

Section Initializer.

Variable w : World.

(** The four ways through [init]. *)
Lemma init_cases (st : Machine) :
  init w st
  = if initialized (this st) then (Returned tt, st)
    else if negb (window_defined w) then (Returned tt, st)
    else
      let st1 := emit (Invoke "init_logger_cmd" (init_request w)) st in
      match invoke_result w (events st) "init_logger_cmd" (init_request w) with
      | None =>
          (Returned tt,
           emit (ConsoleCall console_log
                   [AStr "Logger initialized successfully"])
             (mark_initialized st1))
      | Some e =>
          (Returned tt,
           emit (ConsoleCall console_error
                   [AStr "Failed to initialize logger:"; AErr e]) st1)
      end.
Proof.
  unfold init, init_request. run.
  destruct (initialized (this st)); [reflexivity |].
  destruct (window_defined w); cbn; [| reflexivity].
  destruct (invoke_result w (events st) "init_logger_cmd"
              (InitArgs (init_settings (LOGGER_SETTINGS w)))); reflexivity.
Qed.

(** [init] and [log] never write [isDev]: the build mode of an instance
    is the one its constructor read. *)
Lemma init_isDev (st : Machine) :
  isDev (this (snd (init w st))) = isDev (this st).
Proof.
  rewrite init_cases.
  destruct (initialized (this st)); [reflexivity |].
  destruct (negb (window_defined w)); [reflexivity |].
  cbv zeta.
  destruct (invoke_result w (events st) "init_logger_cmd" (init_request w));
    reflexivity.
Qed.

Lemma run_calls_isDev (calls : list Call) :
  forall st : Machine,
    isDev (this (run_calls calls w st)) = isDev (this st).
Proof.
  induction calls as [| c calls IH]; intro st; cbn [run_calls];
    [reflexivity |].
  rewrite IH. destruct c as [| level message from]; cbn [run_call].
  - apply init_isDev.
  - now rewrite log_this.
Qed.

(** A production build gives an instance that is not in development
    mode, and stays so. *)
Lemma production_is_not_dev (calls : list Call) :
  NODE_ENV w = Some "production" ->
  isDev (this (run_calls calls w (new_LoggerService w))) = false.
Proof.
  intro Hmode. rewrite run_calls_isDev.
  unfold new_LoggerService. rewrite init_isDev. cbn. now rewrite Hmode.
Qed.

Lemma init_returns (st : Machine) : fst (init w st) = Returned tt.
Proof.
  rewrite init_cases.
  destruct (initialized (this st)); [reflexivity |].
  destruct (negb (window_defined w)); [reflexivity |].
  cbv zeta.
  destruct (invoke_result w (events st) "init_logger_cmd" (init_request w));
    reflexivity.
Qed.

Lemma init_noop (st : Machine) :
  initialized (this st) = true -> init w st = (Returned tt, st).
Proof.
  intro Hinit. rewrite init_cases, Hinit. reflexivity.
Qed.

(** The dispatcher sends no configuration command and prints no
    confirmation, whatever the level. *)
Lemma log_not_init (level message : string) (from : option string)
      (st : Machine) :
  invocations "init_logger_cmd" (events (snd (log level message from w st)))
  = invocations "init_logger_cmd" (events st)
  /\ confirmations (events (snd (log level message from w st)))
     = confirmations (events st).
Proof.
  destruct (getCallerLocation_returns w from st)
    as (location & st1 & Hloc).
  pose proof (getCallerLocation_quiet w (is_invoke_of "init_logger_cmd")
                from st eq_refl (fun _ => eq_refl)) as Hcmd.
  pose proof (getCallerLocation_quiet w is_confirmation
                from st eq_refl (fun _ => eq_refl)) as Hconf.
  rewrite Hloc in Hcmd, Hconf. cbn [snd] in Hcmd, Hconf.
  rewrite (log_after_resolver w level message from st Hloc).
  unfold invocations, confirmations.
  assert (Hline : forall c,
             is_confirmation
               (ConsoleCall c [AStr (console_line level message from)])
             = false).
  { intro c. destruct c; reflexivity. }
  destruct (custom_console level) as [c | f |]; cbn [call].
  - unfold console.
    destruct (invoke_result w _ "log_frontend_message"
                (LogArgs level message location)); cbn [snd];
      rewrite !count_emit_other by (reflexivity || apply Hline);
      auto.
  - destruct (needs_receiver f); unfold throw, ret; [auto |].
    destruct (invoke_result w _ "log_frontend_message"
                (LogArgs level message location)); cbn [snd];
      rewrite !count_emit_other by reflexivity; auto.
  - unfold throw. auto.
Qed.

(** A call on an initialized instance leaves the flag set, sends no
    configuration command and prints no confirmation. *)
Lemma run_call_initialized (c : Call) (st : Machine) :
  initialized (this st) = true ->
  initialized (this (snd (run_call c w st))) = true
  /\ invocations "init_logger_cmd" (events (snd (run_call c w st)))
     = invocations "init_logger_cmd" (events st)
  /\ confirmations (events (snd (run_call c w st)))
     = confirmations (events st).
Proof.
  intro Hinit. destruct c as [| level message from]; cbn [run_call].
  - rewrite (init_noop st Hinit). auto.
  - split; [rewrite log_this; exact Hinit |].
    apply log_not_init.
Qed.

Lemma run_calls_initialized (calls : list Call) :
  forall st : Machine,
    initialized (this st) = true ->
    initialized (this (run_calls calls w st)) = true
    /\ invocations "init_logger_cmd" (events (run_calls calls w st))
       = invocations "init_logger_cmd" (events st)
    /\ confirmations (events (run_calls calls w st))
       = confirmations (events st).
Proof.
  induction calls as [| c calls IH]; intros st Hinit; cbn [run_calls].
  - auto.
  - destruct (run_call_initialized c st Hinit) as (Hflag & Hcmd & Hconf).
    destruct (IH _ Hflag) as (Hflag' & Hcmd' & Hconf').
    rewrite Hcmd', Hconf'. auto.
Qed.

Lemma run_call_confirmed_once (c : Call) (st : Machine) :
  confirmed_once st -> confirmed_once (snd (run_call c w st)).
Proof.
  unfold confirmed_once. intro Hinv.
  destruct c as [| level message from]; cbn [run_call].
  - rewrite init_cases.
    destruct (initialized (this st)) eqn:Hinit;
      [cbn [snd]; now rewrite Hinit |].
    destruct (negb (window_defined w)); [cbn [snd]; now rewrite Hinit |].
    cbv zeta.
    destruct (invoke_result w (events st) "init_logger_cmd" (init_request w));
      cbn [snd]; unfold confirmations in *.
    + rewrite count_emit_other by reflexivity.
      rewrite count_emit_other by reflexivity.
      cbn. now rewrite Hinit.
    + rewrite count_emit_one by reflexivity.
      unfold mark_initialized.
      change (events {| this := _; events := ?t |}) with t.
      rewrite count_emit_other by reflexivity.
      rewrite Hinv. reflexivity.
  - rewrite log_this. rewrite (proj2 (log_not_init _ _ _ _)). exact Hinv.
Qed.

Lemma run_calls_confirmed_once (calls : list Call) :
  forall st : Machine,
    confirmed_once st -> confirmed_once (run_calls calls w st).
Proof.
  induction calls as [| c calls IH]; intros st Hinv; cbn [run_calls].
  - exact Hinv.
  - apply IH, run_call_confirmed_once, Hinv.
Qed.

End Initializer.

(** X3.  Idempotence of the initialization path for calls that are
    awaited one after the other.  Start from any instance on which the
    confirmation was printed as often as the flag says: never while the
    flag is false (as on an instance whose fields were just
    initialized), once when it is true.  Then after any sequence of
    [init] and [log] calls, each run to completion before the next, and
    however the backend answers them, the confirmation was printed at
    most once, and still exactly as often as the flag says. *)
Theorem at_most_one_confirmation :
  forall (w : World) (calls : list Call) (st : Machine),
    confirmations (events st) = (if initialized (this st) then 1 else 0) ->
    confirmations (events (run_calls calls w st)) <= 1
    /\ confirmations (events (run_calls calls w st))
       = if initialized (this (run_calls calls w st)) then 1 else 0.
Proof.
  intros w calls st Hst.
  pose proof (@run_calls_confirmed_once w calls st Hst) as Hinv.
  unfold confirmed_once in Hinv. split; [| exact Hinv].
  rewrite Hinv. destruct (initialized (this (run_calls calls w st))); lia.
Qed.

Lemma at_most_one_confirmation_witness :
  confirmations
    (events (run_calls
               [call_init; call_init; call_log "info" "Saved" None;
                call_init]
               (Examples.host "production") (Examples.fresh false)))
  <= 1.
Proof.
  apply (proj1 (at_most_one_confirmation
                  (Examples.host "production")
                  [call_init; call_init; call_log "info" "Saved" None;
                   call_init]
                  (Examples.fresh false) eq_refl)).
Defined.

(** C5.  [init] never throws.  The flag goes from false to true only in
    a run of [init] whose configuration command was accepted by the
    backend; when the command is rejected the flag stays false, and
    [log] never writes the flag.  Once the flag is true, [init] is a
    no-op (the machine is left as it was: no command, no confirmation),
    and no sequence of calls on the instance resets the flag, sends the
    configuration command again or prints the confirmation again. *)
Theorem initialization_flag :
  forall (w : World) (st : Machine),
    fst (init w st) = Returned tt
    /\ (initialized (this st) = true -> init w st = (Returned tt, st))
    /\ (initialized (this st) = false ->
        initialized (this (snd (init w st))) = true ->
        window_defined w = true
        /\ invoke_result w (events st) "init_logger_cmd" (init_request w)
           = None)
    /\ (forall e,
           initialized (this st) = false ->
           invoke_result w (events st) "init_logger_cmd" (init_request w)
           = Some e ->
           initialized (this (snd (init w st))) = false)
    /\ (forall level message from,
           initialized (this (snd (log level message from w st)))
           = initialized (this st))
    /\ (forall calls,
           initialized (this st) = true ->
           initialized (this (run_calls calls w st)) = true
           /\ invocations "init_logger_cmd" (events (run_calls calls w st))
              = invocations "init_logger_cmd" (events st)
           /\ confirmations (events (run_calls calls w st))
              = confirmations (events st)).
Proof.
  intros w st.
  split; [apply init_returns |].
  split; [apply init_noop |].
  split.
  - intros Hfresh. rewrite init_cases, Hfresh.
    destruct (window_defined w); cbn [negb]; [| cbn; congruence].
    cbv zeta.
    destruct (invoke_result w (events st) "init_logger_cmd" (init_request w));
      cbn; [congruence | auto].
  - split; [| split].
    + intros e Hfresh Hreject. rewrite init_cases, Hfresh, Hreject.
      destruct (negb (window_defined w)); cbn; exact Hfresh.
    + intros level message from. now rewrite log_this.
    + intros calls. apply run_calls_initialized.
Qed.

Lemma initialization_flag_witness :
  init (Examples.host "production") (Examples.ready false)
  = (Returned tt, Examples.ready false)
  /\ initialized
       (this (snd (init (Examples.broken_host "production")
                     (Examples.fresh false))))
     = false
  /\ initialized
       (this (run_calls
                [call_init; call_log "info" "Saved" None; call_init]
                (Examples.host "production")
                (new_LoggerService (Examples.host "production"))))
     = true.
Proof.
  split; [| split].
  - apply (proj1 (proj2 (initialization_flag
                           (Examples.host "production")
                           (Examples.ready false)))).
    reflexivity.
  - apply (proj1 (proj2 (proj2 (proj2 (initialization_flag
                                         (Examples.broken_host "production")
                                         (Examples.fresh false)))))
             (HostError "backend unreachable")); reflexivity.
  - apply (proj2 (proj2 (proj2 (proj2 (proj2 (initialization_flag
                                         (Examples.host "production")
                                         (new_LoggerService
                                            (Examples.host "production")))))))
             [call_init; call_log "info" "Saved" None; call_init]).
    reflexivity.
Defined.

(** C9.  The settings object of the configuration command carries the
    five values of the internal settings under the backend's names:
    [logType], [maxFileSize], [consoleLevel] and [fileLevel] unchanged,
    and [logPath] unchanged when it is present and not empty, [null]
    when it is absent or empty.  It is what [init] sends, as its first
    action, whenever it gets past its two guards. *)
Theorem init_settings_renames :
  forall (w : World) (st : Machine),
    let s := LOGGER_SETTINGS w in
    let sent := init_settings s in
    log_type sent = logType s
    /\ max_file_size sent = maxFileSize s
    /\ console_level sent = consoleLevel s
    /\ file_level sent = fileLevel s
    /\ (forall p, logPath s = Some p -> p <> "" -> log_path sent = Some p)
    /\ (logPath s = None \/ logPath s = Some "" -> log_path sent = None)
    /\ (initialized (this st) = false ->
        window_defined w = true ->
        exists rest,
          events (snd (init w st))
          = (events st ++ Invoke "init_logger_cmd" (InitArgs sent) :: rest)%list).
Proof.
  intros w st s sent.
  repeat (split; [reflexivity |]).
  split; [| split].
  - intros p Hp Hne. unfold sent, init_settings. cbn.
    rewrite Hp. apply truthy_nonempty, Hne.
  - unfold sent, init_settings. cbn. intros [-> | ->]; reflexivity.
  - intros Hfresh Hwindow. rewrite init_cases, Hfresh, Hwindow.
    cbn [negb]. cbv zeta. fold s. unfold init_request. fold s. fold sent.
    destruct (invoke_result w (events st) "init_logger_cmd" (InitArgs sent));
      cbn; rewrite <- ?app_assoc; eexists; reflexivity.
Qed.

Lemma init_settings_renames_witness :
  exists rest,
    events (snd (init (Examples.host "production") (Examples.fresh false)))
    = Invoke "init_logger_cmd"
        (InitArgs {| log_path := Some "/var/log/app.log";
                     log_type := "file";
                     max_file_size := 1048576;
                     console_level := "info";
                     file_level := "debug" |}) :: rest.
Proof.
  apply (proj2 (proj2 (proj2 (proj2 (proj2 (proj2
           (init_settings_renames (Examples.host "production")
              (Examples.fresh false)))))))
           eq_refl eq_refl).
Defined.

(** ** The patterns on every input *)

Unset Implicit Arguments.

Section Patterns.

Lemma drop_0 (s : string) : JSString.drop 0 s = s.
Proof. destruct s; reflexivity. Qed.

Lemma take_0 (s : string) : JSString.take 0 s = "".
Proof. destruct s; reflexivity. Qed.

Lemma drop_drop (n k : nat) : forall s : string,
  JSString.drop n (JSString.drop k s) = JSString.drop (k + n) s.
Proof.
  induction k as [| k IH]; intro s.
  - now rewrite drop_0.
  - destruct s as [| c s]; cbn.
    + destruct n; reflexivity.
    + apply IH.
Qed.

Lemma drop_append (a b : string) :
  JSString.drop (String.length a) (a ++ b) = b.
Proof.
  induction a as [| c a IH]; cbn; [apply drop_0 | exact IH].
Qed.

Lemma prefix_nil (s : string) : String.prefix "" s = true.
Proof. destruct s; reflexivity. Qed.

Lemma prefix_cons (a c : ascii) (p s : string) :
  String.prefix (String a p) (String c s)
  = if Ascii.eqb c a then String.prefix p s else false.
Proof.
  cbn. destruct (ascii_dec a c) as [-> | Hne].
  - now rewrite Ascii.eqb_refl.
  - destruct (Ascii.eqb_spec c a); congruence.
Qed.

Lemma prefix_append (a b : string) : String.prefix a (a ++ b) = true.
Proof.
  induction a as [| c a IH]; [apply prefix_nil |].
  cbn [append]. now rewrite prefix_cons, Ascii.eqb_refl.
Qed.

(** A literal run matches exactly when it is a prefix of the input. *)
Lemma m_Lit (R : Type) (p : string) :
  forall (pos : nat) (s : string) (cap : capture) (k : cont R),
    m (Lit p) pos s cap k
    = if String.prefix p s
      then k (pos + String.length p) (JSString.drop (String.length p) s) cap
      else None.
Proof.
  induction p as [| a p IH]; intros pos s cap k.
  - rewrite prefix_nil. change (String.length "") with 0.
    now rewrite Nat.add_0_r, drop_0.
  - destruct s as [| c s]; [reflexivity |].
    rewrite prefix_cons. cbn [Lit m atom_matches].
    destruct (Ascii.eqb c a); [| reflexivity].
    rewrite IH. cbn [String.length JSString.drop].
    now rewrite Nat.add_succ_r.
Qed.

(** An anchored pattern matches at the start of the input or nowhere. *)
Lemma search_Bol_later (r : regex) :
  forall (s : string) (pos : nat), search (Seq Bol r) (S pos) s = None.
Proof.
  induction s as [| c s IH]; intro pos; cbn; [reflexivity | apply IH].
Qed.

(** [s.replace(/^p/, "")] removes the prefix [p] when [s] has it. *)
Lemma replace_anchored (p s : string) :
  replace (Seq Bol (Lit p)) "" s
  = if String.prefix p s then JSString.drop (String.length p) s else s.
Proof.
  unfold replace, exec.
  assert (Hat : match_at (Seq Bol (Lit p)) 0 s
                = if String.prefix p s
                  then Some {| index := 0; lastIndex := String.length p;
                               group1 := None |}
                  else None).
  { unfold match_at. cbn. rewrite m_Lit. reflexivity. }
  destruct s as [| c s].
  - cbn [search]. rewrite Hat. destruct (String.prefix p ""); reflexivity.
  - cbn [search]. rewrite Hat, search_Bol_later.
    destruct (String.prefix p (String c s)); [| reflexivity].
    cbn [index lastIndex]. rewrite take_0. reflexivity.
Qed.

(** *** Lines *)

Lemma line_of_length (s : string) :
  String.length (line_of s) <= String.length s.
Proof.
  induction s as [| c s IH]; cbn; [lia |].
  destruct (is_line_terminator c); cbn; lia.
Qed.

Lemma take_line_of (s : string) :
  JSString.take (String.length (line_of s)) s = line_of s.
Proof.
  induction s as [| c s IH]; cbn; [reflexivity |].
  destruct (is_line_terminator c); cbn; [reflexivity | now rewrite IH].
Qed.

Lemma line_of_single_line (s : string) : single_line (line_of s) = true.
Proof.
  induction s as [| c s IH]; cbn; [reflexivity |].
  destruct (is_line_terminator c) eqn:Hc; cbn; [reflexivity |].
  now rewrite Hc.
Qed.

Lemma line_of_idem (s : string) : single_line s = true -> line_of s = s.
Proof.
  induction s as [| c s IH]; cbn; [reflexivity |].
  destruct (is_line_terminator c); cbn; [discriminate |].
  intro H. now rewrite IH.
Qed.

Lemma single_line_append (a b : string) :
  single_line (a ++ b) = single_line a && single_line b.
Proof.
  unfold single_line.
  induction a as [| c a IH]; cbn; [reflexivity |].
  now rewrite IH, andb_assoc.
Qed.

Lemma line_of_append (a b : string) :
  single_line a = true -> line_of (a ++ b) = a ++ line_of b.
Proof.
  induction a as [| c a IH]; cbn; [reflexivity |].
  destruct (is_line_terminator c); cbn; [discriminate |].
  intro H. now rewrite IH.
Qed.

Lemma sep_not_terminator (c : ascii) :
  is_sep c = true -> is_line_terminator c = false.
Proof.
  unfold is_sep. cbn. rewrite orb_false_r.
  intro H. apply orb_true_iff in H.
  destruct H as [H | H]; apply Ascii.eqb_eq in H; subst; reflexivity.
Qed.

(** A prefix is cut off by [drop]. *)
Lemma prefix_split (d : string) :
  forall t : string,
    String.prefix d t = true ->
    t = d ++ JSString.drop (String.length d) t.
Proof.
  induction d as [| a d IH]; intros t H.
  - now rewrite drop_0.
  - destruct t as [| c t]; [discriminate |].
    rewrite prefix_cons in H.
    destruct (Ascii.eqb_spec c a) as [-> | Hne]; [| discriminate].
    cbn. f_equal. apply IH, H.
Qed.

(** *** The greedy star *)

(** With a continuation that cannot fail, the star takes the rest of
    the line. *)
Lemma star_to_end_of_line (R : Type) (k : cont R) :
  (forall p t c, k p t c <> None) ->
  forall (s : string) (pos : nat) (cap : capture),
    star ADot pos s cap k
    = k (pos + String.length (line_of s))
        (JSString.drop (String.length (line_of s)) s) cap.
Proof.
  intros Hk. induction s as [| c s IH]; intros pos cap.
  - cbn. now rewrite Nat.add_0_r.
  - cbn. destruct (is_line_terminator c); cbn.
    + now rewrite Nat.add_0_r.
    + rewrite IH, Nat.add_succ_r. cbn [Nat.add].
      destruct (k (S (pos + String.length (line_of s)))
                  (JSString.drop (String.length (line_of s)) s) cap) eqn:E;
        [reflexivity | now apply Hk in E].
Qed.

(** *** The project-root pattern *)

Lemma length_append (a b : string) :
  String.length (a ++ b) = String.length a + String.length b.
Proof.
  induction a as [| c a IH]; cbn; [reflexivity | now rewrite IH].
Qed.

Lemma root_dirs_plain :
  forall d, In d root_dirs ->
            single_line d = true /\ none_of is_sep d = true /\ d <> "".
Proof.
  intros d Hd. cbn in Hd.
  repeat (destruct Hd as [<- | Hd];
          [split; [reflexivity | split; [reflexivity | discriminate]] |]).
  contradiction.
Qed.

(** An alternation of literal names, each followed by the same
    continuation: the first name that is a prefix and whose continuation
    succeeds decides. *)
Lemma m_AltOf_Lit (R : Type) (t : string) (pos : nat) (cap : capture)
      (k : cont R) (x : R) :
  forall ds : list string,
    ds <> [] ->
    (forall d, In d ds -> String.prefix d t = true ->
       k (pos + String.length d) (JSString.drop (String.length d) t) cap
       = match JSString.drop (String.length d) t with
         | String c _ => if is_sep c then Some x else None
         | EmptyString => None
         end) ->
    m (AltOf (map Lit ds)) pos t cap k
    = if existsb (follows_root t) ds then Some x else None.
Proof.
  assert (Hone : forall d,
             (String.prefix d t = true ->
              k (pos + String.length d) (JSString.drop (String.length d) t) cap
              = match JSString.drop (String.length d) t with
                | String c _ => if is_sep c then Some x else None
                | EmptyString => None
                end) ->
             m (Lit d) pos t cap k
             = if follows_root t d then Some x else None).
  { intros d Hd. rewrite m_Lit. unfold follows_root.
    destruct (String.prefix d t); [| reflexivity].
    rewrite (Hd eq_refl). cbn [andb].
    destruct (JSString.drop (String.length d) t) as [| c u];
      [reflexivity |].
    destruct (is_sep c); reflexivity. }
  induction ds as [| a ds IH]; intros Hne Hk; [congruence |].
  destruct ds as [| b ds].
  - cbn [map AltOf existsb]. rewrite orb_false_r.
    apply Hone, Hk. now left.
  - change (AltOf (map Lit (a :: b :: ds)))
      with (Alt (Lit a) (AltOf (map Lit (b :: ds)))).
    cbn [m]. rewrite (Hone a (Hk a (or_introl eq_refl))).
    cbn [existsb].
    destruct (follows_root t a); [reflexivity |].
    cbn [orb]. apply IH; [discriminate |].
    intros d Hd. apply Hk. now right.
Qed.

(** What follows the leading star: a separator, then the group. *)
Lemma m_root_tail (idx pos : nat) (s : string) (cap : capture) :
  m (Seq (Atom sep)
       (Group (Seq (AltOf (map Lit root_dirs))
                 (Seq (Atom sep) (Star ADot)))))
    pos s cap
    (fun e _ cap' =>
       Some {| index := idx; lastIndex := e; group1 := cap' |})
  = match s with
    | String c t =>
        if is_sep c && starts_at_root t
        then Some {| index := idx;
                     lastIndex := S pos + String.length (line_of t);
                     group1 :=
                       Some (S pos, S pos + String.length (line_of t)) |}
        else None
    | EmptyString => None
    end.
Proof.
  destruct s as [| c t]; [reflexivity |].
  cbn [m]. fold (is_sep c). destruct (is_sep c); [| reflexivity].
  cbn [andb]. unfold starts_at_root.
  apply m_AltOf_Lit; [discriminate |].
  intros d Hd Hprefix.
  destruct (root_dirs_plain d Hd) as (Hline & _ & _).
  destruct (JSString.drop (String.length d) t) as [| c2 t2] eqn:Hrest;
    [reflexivity |].
  fold (is_sep c2). destruct (is_sep c2) eqn:Hc2; [| reflexivity].
  rewrite star_to_end_of_line by discriminate.
  f_equal.
  assert (Hlen : String.length (line_of t)
                 = String.length d + S (String.length (line_of t2))).
  { rewrite (prefix_split d t Hprefix), Hrest at 1.
    rewrite (line_of_append _ _ Hline). cbn [line_of].
    rewrite (sep_not_terminator c2 Hc2). now rewrite length_append. }
  rewrite Hlen. f_equal; [lia | f_equal; f_equal; lia].
Qed.

Lemma terminator_not_sep (c : ascii) :
  is_line_terminator c = true -> is_sep c = false.
Proof.
  intro H. destruct (is_sep c) eqn:Hc; [| reflexivity].
  apply sep_not_terminator in Hc. congruence.
Qed.

(** The leading star followed by the rest of the pattern finds the last
    root of the line. *)
Lemma star_root_tail (idx : nat) :
  forall (s : string) (pos : nat),
    star ADot pos s None
      (fun pos' s' cap' =>
         m (Seq (Atom sep)
              (Group (Seq (AltOf (map Lit root_dirs))
                        (Seq (Atom sep) (Star ADot)))))
           pos' s' cap'
           (fun e _ cap'' =>
              Some {| index := idx; lastIndex := e; group1 := cap'' |}))
    = match last_root s with
      | Some g =>
          let e := pos + String.length (line_of s) in
          Some {| index := idx; lastIndex := e;
                  group1 := Some (e - String.length g, e) |}
      | None => None
      end.
Proof.
  induction s as [| c s IH]; intro pos.
  - reflexivity.
  - cbn [star atom_matches last_root line_of].
    destruct (is_line_terminator c) eqn:Hc; cbn [negb].
    + rewrite m_root_tail, (terminator_not_sep c Hc). reflexivity.
    + rewrite IH. destruct (last_root s) as [g |].
      * cbv zeta. cbn [String.length]. now rewrite Nat.add_succ_r.
      * rewrite m_root_tail.
        destruct (is_sep c && starts_at_root s); [| reflexivity].
        cbv zeta. cbn [String.length]. f_equal. f_equal; [lia |].
        f_equal. f_equal; lia.
Qed.

Lemma match_at_root (s : string) (pos : nat) :
  match_at re_project_root pos s
  = match last_root s with
    | Some g =>
        let e := pos + String.length (line_of s) in
        Some {| index := pos; lastIndex := e;
                group1 := Some (e - String.length g, e) |}
    | None => None
    end.
Proof.
  unfold match_at, re_project_root. cbn [m]. apply star_root_tail.
Qed.

(** Where the last root of a line lies. *)
Lemma last_root_place :
  forall (s g : string),
    last_root s = Some g ->
    exists n,
      0 < n
      /\ n + String.length g = String.length (line_of s)
      /\ g = line_of (JSString.drop n s)
      /\ starts_at_root (JSString.drop n s) = true
      /\ last_root (JSString.drop n s) = None.
Proof.
  induction s as [| c s IH]; intros g H; [discriminate |].
  cbn [last_root] in H. cbn [line_of].
  destruct (is_line_terminator c); [discriminate |].
  destruct (last_root s) as [g' |] eqn:Hs.
  - injection H as <-. destruct (IH g' eq_refl) as (n & Hn & Hlen & Hg & Hr & Hl).
    exists (S n). cbn [JSString.drop String.length].
    repeat split; try assumption; lia.
  - destruct (is_sep c && starts_at_root s) eqn:Hc; [| discriminate].
    injection H as <-. apply andb_true_iff in Hc as [_ Hroot].
    exists 1. cbn [JSString.drop String.length].
    repeat split; try assumption; lia.
Qed.

Lemma drop_S (pos : nat) (full s : string) (c : ascii) :
  JSString.drop pos full = String c s -> JSString.drop (S pos) full = s.
Proof.
  intro H. rewrite <- Nat.add_1_r, <- drop_drop, H. reflexivity.
Qed.

Lemma search_root (full : string) :
  forall (s : string) (pos : nat),
    JSString.drop pos full = s ->
    match search re_project_root pos s with
    | Some {| group1 := Some (b, e) |} =>
        Some (JSString.take (e - b) (JSString.drop b full))
    | _ => None
    end
    = first_root s.
Proof.
  assert (Hhit : forall s pos g,
             JSString.drop pos full = s ->
             last_root s = Some g ->
             let e := pos + String.length (line_of s) in
             JSString.take (e - (e - String.length g))
               (JSString.drop (e - String.length g) full)
             = g).
  { intros s pos g Hs Hg e.
    destruct (last_root_place s g Hg) as (n & _ & Hlen & Hline & _).
    assert (He : e - String.length g = pos + n) by (unfold e; lia).
    rewrite He. replace (e - (pos + n)) with (String.length g)
      by (unfold e; lia).
    rewrite <- drop_drop, Hs, Hline. apply take_line_of. }
  induction s as [| c s IH]; intros pos Hs.
  - cbn [search first_root]. rewrite match_at_root. reflexivity.
  - cbn [search first_root]. rewrite match_at_root.
    destruct (last_root (String c s)) as [g |] eqn:Hg.
    + cbv zeta. cbn [group1]. f_equal.
      apply (Hhit (String c s) pos g Hs Hg).
    + apply IH, (drop_S pos full s c Hs).
Qed.

(** *** Facts about the direct scan *)

Lemma append_nil (s : string) : s ++ "" = s.
Proof.
  induction s as [| c s IH]; cbn; [reflexivity | now rewrite IH].
Qed.

Lemma none_of_append (p : ascii -> bool) (a b : string) :
  none_of p (a ++ b) = none_of p a && none_of p b.
Proof.
  induction a as [| c a IH]; cbn; [reflexivity |].
  now rewrite IH, andb_assoc.
Qed.

Lemma none_of_drop (p : ascii -> bool) (n : nat) :
  forall s : string, none_of p s = true -> none_of p (JSString.drop n s) = true.
Proof.
  induction n as [| n IH]; intros s H; [now rewrite drop_0 |].
  destruct s as [| c s]; [exact H |].
  cbn in H |- *. apply andb_true_iff in H as [_ H]. apply IH, H.
Qed.

(** Whether a name starts at a root is decided within its first
    line. *)
Lemma follows_root_line (d : string) :
  single_line d = true ->
  forall t : string, follows_root (line_of t) d = follows_root t d.
Proof.
  unfold follows_root.
  induction d as [| a d IH]; intros Hd t.
  - rewrite !prefix_nil. cbn [String.length andb]. rewrite !drop_0.
    destruct t as [| c t]; [reflexivity |].
    cbn [line_of]. destruct (is_line_terminator c) eqn:Hc; [| reflexivity].
    now rewrite (terminator_not_sep c Hc).
  - cbn in Hd. apply andb_true_iff in Hd as [Ha Hd].
    apply negb_true_iff in Ha.
    destruct t as [| c t]; [reflexivity |].
    cbn [line_of]. rewrite prefix_cons.
    destruct (Ascii.eqb_spec c a) as [-> | Hne].
    + rewrite Ha, prefix_cons, Ascii.eqb_refl.
      cbn [String.length JSString.drop]. apply IH, Hd.
    + destruct (is_line_terminator c); [reflexivity |].
      rewrite prefix_cons.
      destruct (Ascii.eqb_spec c a); [contradiction | reflexivity].
Qed.

Lemma starts_at_root_line (t : string) :
  starts_at_root (line_of t) = starts_at_root t.
Proof.
  unfold starts_at_root.
  assert (H : forall ds,
             (forall d, In d ds -> single_line d = true) ->
             existsb (follows_root (line_of t)) ds
             = existsb (follows_root t) ds).
  { induction ds as [| d ds IH]; intro Hds; [reflexivity |].
    cbn [existsb]. rewrite follows_root_line by (apply Hds; now left).
    rewrite IH; [reflexivity |]. intros d' Hd'. apply Hds. now right. }
  apply H. intros d Hd. apply (root_dirs_plain d Hd).
Qed.

Lemma starts_at_root_has_sep (t : string) :
  starts_at_root t = true -> none_of is_sep t = false.
Proof.
  unfold starts_at_root. intro H.
  apply existsb_exists in H as (d & _ & Hd).
  unfold follows_root in Hd. apply andb_true_iff in Hd as [_ Hd].
  destruct (none_of is_sep t) eqn:Hnone; [| reflexivity].
  apply (none_of_drop is_sep (String.length d)) in Hnone.
  destruct (JSString.drop (String.length d) t) as [| c u];
    [discriminate |].
  cbn [none_of] in Hnone. now rewrite Hd in Hnone.
Qed.

Lemma last_root_line (s : string) : last_root (line_of s) = last_root s.
Proof.
  induction s as [| c s IH]; [reflexivity |].
  cbn [line_of last_root].
  destruct (is_line_terminator c) eqn:Hc; [reflexivity |].
  cbn [last_root]. rewrite Hc, IH, starts_at_root_line.
  now rewrite (line_of_idem _ (line_of_single_line s)).
Qed.

Lemma first_root_single_line (s : string) :
  single_line s = true -> last_root s = None -> first_root s = None.
Proof.
  induction s as [| c s IH]; intros Hline Hlast; [reflexivity |].
  cbn [first_root]. rewrite Hlast.
  cbn in Hline. apply andb_true_iff in Hline as [Hc Hline].
  apply negb_true_iff in Hc.
  apply IH; [exact Hline |].
  cbn [last_root] in Hlast. rewrite Hc in Hlast.
  destruct (last_root s); [discriminate | reflexivity].
Qed.

Lemma first_root_last (s g : string) :
  first_root s = Some g ->
  exists k, last_root (JSString.drop k s) = Some g.
Proof.
  induction s as [| c s IH]; intro H; [discriminate |].
  cbn [first_root] in H.
  destruct (last_root (String c s)) as [g' |] eqn:Hlast.
  - injection H as <-. exists 0. exact Hlast.
  - destruct (IH H) as [k Hk]. exists (S k). exact Hk.
Qed.

Lemma drop_length (k : nat) :
  forall s : string, String.length (JSString.drop k s) <= String.length s.
Proof.
  induction k as [| k IH]; intro s; [now rewrite drop_0 |].
  destruct s as [| c s]; cbn; [lia |]. specialize (IH s). lia.
Qed.

(** What the scan returns: the rest of a line, from a place after a
    separator where a known directory starts, with no further root
    inside. *)
Lemma first_root_place (s g : string) :
  first_root s = Some g ->
  (exists n, 0 < n /\ g = line_of (JSString.drop n s))
  /\ starts_at_root g = true
  /\ single_line g = true
  /\ first_root g = None
  /\ String.length g < String.length s.
Proof.
  intro H. destruct (first_root_last s g H) as [k Hk].
  destruct (last_root_place _ _ Hk) as (n & Hn & Hlen & Hg & Hroot & Hnone).
  rewrite drop_drop in Hg, Hroot, Hnone.
  assert (Hline : single_line g = true)
    by (rewrite Hg; apply line_of_single_line).
  split; [exists (k + n); split; [lia | exact Hg] |].
  split; [rewrite Hg, starts_at_root_line; exact Hroot |].
  split; [exact Hline |].
  split.
  - apply first_root_single_line; [exact Hline |].
    rewrite Hg, last_root_line. exact Hnone.
  - pose proof (line_of_length (JSString.drop k s)).
    pose proof (drop_length k s). lia.
Qed.

Lemma starts_at_root_nonempty (g : string) :
  starts_at_root g = true -> JSString.nonempty g = true.
Proof.
  destruct g; [discriminate | reflexivity].
Qed.

Lemma project_relative_scan (s : string) :
  project_relative s
  = match first_root s with Some g => g | None => s end.
Proof.
  unfold project_relative, match1, exec.
  rewrite (search_root s s 0 (drop_0 s)).
  destruct (first_root s) as [g |] eqn:H; [| reflexivity].
  destruct (first_root_place s g H) as (_ & Hroot & _).
  now rewrite (starts_at_root_nonempty g Hroot).
Qed.

(** A name is left as it is exactly when the scan finds nothing. *)
Lemma project_relative_fixed (s : string) :
  project_relative s = s <-> first_root s = None.
Proof.
  rewrite project_relative_scan. split.
  - destruct (first_root s) as [g |] eqn:H; [| reflexivity].
    intros ->. destruct (first_root_place s s H) as (_ & _ & _ & _ & Hlt).
    lia.
  - intros ->. reflexivity.
Qed.

End Patterns.

(** ** Normalization on every input *)

(** X4.  The match of line 67 reads the name as follows: in the first
    line, counted from each start position in turn, that has a separator
    followed by a known directory name and a separator, it takes the
    last such separator and captures from the directory to the end of
    that line; [project_relative] returns the capture, and the name
    itself when there is none. *)
Theorem project_root_match :
  forall s : string,
    match1 re_project_root s = first_root s
    /\ project_relative s
       = match first_root s with Some g => g | None => s end.
Proof.
  intro s. split; [| apply project_relative_scan].
  unfold match1, exec. apply (search_root s s 0 (drop_0 s)).
Qed.

(** X5.  Rewriting to the project-relative form is idempotent: the name
    it returns is left unchanged by a second pass. *)
Theorem project_relative_idempotent :
  forall s : string,
    project_relative (project_relative s) = project_relative s.
Proof.
  intro s. rewrite (project_relative_scan s).
  destruct (first_root s) as [g |] eqn:H.
  - apply project_relative_fixed.
    apply (first_root_place s g H).
  - apply project_relative_fixed, H.
Qed.

(** X6.  The project-relative form of a name is the name itself or a
    strictly shorter part of it: the rest of one of its lines from some
    position after the first character, which begins with a known
    directory name and a separator and has no line terminator. *)
Theorem project_relative_shape :
  forall s : string,
    project_relative s = s
    \/ ((exists n, 0 < n
                   /\ project_relative s = line_of (JSString.drop n s))
        /\ starts_at_root (project_relative s) = true
        /\ single_line (project_relative s) = true
        /\ String.length (project_relative s) < String.length s).
Proof.
  intro s. rewrite (project_relative_scan s).
  destruct (first_root s) as [g |] eqn:H; [right | now left].
  destruct (first_root_place s g H) as (Hn & Hroot & Hline & _ & Hlt).
  repeat split; assumption.
Qed.

(** A name in project-relative form is found again behind any one-line
    prefix and separator. *)
Lemma project_relative_prefix :
  forall (p g : string) (c : ascii),
    single_line p = true ->
    is_sep c = true ->
    starts_at_root g = true ->
    single_line g = true ->
    project_relative g = g ->
    project_relative (p ++ String c g) = g.
Proof.
  intros p g c Hp Hc Hroot Hline Hfixed.
  apply project_relative_fixed in Hfixed.
  assert (Hnone : last_root g = None).
  { destruct g as [| a g]; [reflexivity |].
    cbn [first_root] in Hfixed.
    destruct (last_root (String a g)); [discriminate | reflexivity]. }
  assert (Hlast : last_root (p ++ String c g) = Some g).
  { induction p as [| a p IH].
    - cbn [append last_root].
      rewrite (sep_not_terminator c Hc), Hnone, Hc, Hroot. cbn [andb].
      now rewrite (line_of_idem g Hline).
    - cbn in Hp. apply andb_true_iff in Hp as [Ha Hp].
      apply negb_true_iff in Ha.
      cbn [append last_root]. now rewrite Ha, (IH Hp). }
  rewrite project_relative_scan.
  destruct (p ++ String c g) as [| a u] eqn:E; [discriminate |].
  cbn [first_root]. now rewrite Hlast.
Qed.

(** X7.  The result does not depend on where the project lies: a name
    [g] that begins with a known directory and a separator, has no line
    terminator and is already in project-relative form is what is
    returned for [p ++ c ++ g], whatever the one-line prefix [p] and the
    separator [c]. *)
Theorem project_relative_under_any_prefix :
  forall (p g : string) (c : ascii),
    single_line p = true ->
    is_sep c = true ->
    starts_at_root g = true ->
    single_line g = true ->
    project_relative g = g ->
    project_relative (p ++ String c g) = g.
Proof.
  exact project_relative_prefix.
Qed.

Lemma project_relative_under_any_prefix_witness :
  project_relative "C:\Users\dev\my-app\lib\services\LoggerService.ts"
  = "lib\services\LoggerService.ts".
Proof.
  apply (project_relative_under_any_prefix
           "C:\Users\dev\my-app" "lib\services\LoggerService.ts" "\"%char);
    reflexivity.
Defined.

(** Text without a separator holds no root and hides none. *)
Lemma last_root_skip (a u : string) :
  none_of is_sep a = true ->
  last_root (a ++ u) = if single_line a then last_root u else None.
Proof.
  induction a as [| c a IH]; intro Ha; [reflexivity |].
  cbn [none_of] in Ha. apply andb_true_iff in Ha as [Hc Ha].
  apply negb_true_iff in Hc.
  cbn [append last_root single_line none_of].
  fold (single_line a).
  destruct (is_line_terminator c); [reflexivity |].
  cbn [negb andb]. rewrite (IH Ha), Hc. cbn [andb].
  destruct (single_line a); [| reflexivity].
  destruct (last_root u); reflexivity.
Qed.

Lemma first_root_skip (a u : string) :
  none_of is_sep a = true -> first_root (a ++ u) = first_root u.
Proof.
  induction a as [| c a IH]; intro Ha; [reflexivity |].
  pose proof (last_root_skip (String c a) u Ha) as Hlast.
  cbn [none_of] in Ha. apply andb_true_iff in Ha as [_ Ha].
  cbn [append first_root] in *. rewrite Hlast, (IH Ha).
  destruct (single_line (String c a)); [| reflexivity].
  destruct u as [| x u]; [reflexivity |].
  cbn [first_root]. destruct (last_root (String x u)); reflexivity.
Qed.

Lemma first_root_no_sep (f : string) :
  none_of is_sep f = true -> first_root f = None.
Proof.
  intro H. rewrite <- (append_nil f). now rewrite first_root_skip.
Qed.

(** X8.  A file that lies directly in a known directory is reported as
    directory, separator, file, whatever precedes the directory on the
    line: the directories further up, known or not, are dropped. *)
Theorem project_relative_known_directory :
  forall (p d f : string) (c c' : ascii),
    single_line p = true ->
    is_sep c = true ->
    In d root_dirs ->
    is_sep c' = true ->
    none_of is_sep f = true ->
    single_line f = true ->
    project_relative (p ++ String c (d ++ String c' f)) = d ++ String c' f
    /\ project_relative (d ++ String c' f) = d ++ String c' f.
Proof.
  intros p d f c c' Hp Hc Hd Hc' Hf Hline.
  destruct (root_dirs_plain d Hd) as (Hdline & Hdsep & _).
  assert (Hfixed : project_relative (d ++ String c' f) = d ++ String c' f).
  { apply project_relative_fixed.
    rewrite (first_root_skip d _ Hdsep).
    cbn [first_root last_root].
    rewrite (sep_not_terminator c' Hc').
    pose proof (first_root_no_sep f Hf) as Hnone. rewrite Hnone.
    assert (Hlast : last_root f = None).
    { destruct f as [| x f]; [reflexivity |].
      cbn [first_root] in Hnone.
      destruct (last_root (String x f)); [discriminate | reflexivity]. }
    rewrite Hlast.
    destruct (starts_at_root f) eqn:Hroot;
      [apply starts_at_root_has_sep in Hroot; congruence |].
    now rewrite andb_false_r. }
  split; [| exact Hfixed].
  apply project_relative_prefix; try assumption.
  - unfold starts_at_root. apply existsb_exists. exists d.
    split; [exact Hd |]. unfold follows_root.
    now rewrite prefix_append, drop_append, Hc'.
  - rewrite single_line_append, Hdline. cbn.
    fold (single_line f). now rewrite (sep_not_terminator c' Hc'), Hline.
Qed.

Lemma project_relative_known_directory_witness :
  project_relative "/home/user/project/src/hooks/useAuth.ts"
  = "hooks/useAuth.ts"
  /\ project_relative "hooks/useAuth.ts" = "hooks/useAuth.ts".
Proof.
  apply (project_relative_known_directory
           "/home/user/project/src" "hooks" "useAuth.ts" "/"%char "/"%char);
    try reflexivity.
  cbn. tauto.
Defined.

(** The three rewrites of lines 53-56 as prefix removals. *)
Lemma strip_loader_prefixes_unfold (s : string) :
  strip_loader_prefixes s
  = let s1 := if String.prefix "webpack-internal:///./" s
              then JSString.drop 22 s else s in
    let s2 := if String.prefix "webpack-internal:///" s1
              then JSString.drop 20 s1 else s1 in
    if String.prefix "file://" s2 then JSString.drop 7 s2 else s2.
Proof.
  unfold strip_loader_prefixes, re_file, re_webpack, re_webpack_dot.
  rewrite !replace_anchored. reflexivity.
Qed.

Lemma prefix_shorter (a b s : string) :
  String.prefix (a ++ b) s = true -> String.prefix a s = true.
Proof.
  revert s. induction a as [| c a IH]; intros s H; [apply prefix_nil |].
  destruct s as [| x s]; [discriminate |].
  cbn [append] in H. rewrite prefix_cons in *.
  destruct (Ascii.eqb x c); [apply IH, H | discriminate].
Qed.

Lemma prefix_append_same (a s : string) :
  forall b, String.prefix b (a ++ s) = true ->
            String.length a <= String.length b ->
            String.prefix (JSString.drop (String.length a) b) s = true.
Proof.
  induction a as [| c a IH]; intros b H Hlen.
  - now rewrite drop_0.
  - destruct b as [| x b]; [cbn in Hlen; lia |].
    cbn [append] in H. rewrite prefix_cons in H.
    destruct (Ascii.eqb c x); [| discriminate].
    cbn [String.length JSString.drop]. apply IH; [exact H |].
    cbn in Hlen. lia.
Qed.

(** A name with none of the loader prefixes is left as it is. *)
Lemma strip_loader_prefixes_plain (t : string) :
  String.prefix "webpack-internal:///" t = false ->
  String.prefix "file://" t = false ->
  strip_loader_prefixes t = t.
Proof.
  intros Hw Hf. rewrite strip_loader_prefixes_unfold.
  destruct (String.prefix "webpack-internal:///./" t) eqn:Hdot.
  - apply (prefix_shorter "webpack-internal:///" "./") in Hdot.
    congruence.
  - cbv zeta. now rewrite Hw, Hf.
Qed.

(** [file://] is removed from the front of any name. *)
Lemma strip_loader_prefixes_file (s : string) :
  strip_loader_prefixes ("file://" ++ s) = s.
Proof.
  rewrite strip_loader_prefixes_unfold.
  assert (Hdot : String.prefix "webpack-internal:///./" ("file://" ++ s)
                 = false)
    by (cbn [append]; rewrite prefix_cons; reflexivity).
  assert (Hw : String.prefix "webpack-internal:///" ("file://" ++ s)
               = false)
    by (cbn [append]; rewrite prefix_cons; reflexivity).
  rewrite Hdot. cbv zeta. rewrite Hw, (prefix_append "file://" s).
  apply (drop_append "file://" s).
Qed.

(** [webpack-internal:///./] is removed from the front of a name whose
    rest has no loader prefix. *)
Lemma strip_loader_prefixes_webpack_dot (s : string) :
  String.prefix "webpack-internal:///" s = false ->
  String.prefix "file://" s = false ->
  strip_loader_prefixes ("webpack-internal:///./" ++ s) = s.
Proof.
  intros Hw Hf. rewrite strip_loader_prefixes_unfold.
  rewrite (prefix_append "webpack-internal:///./" s). cbv zeta.
  change 22 with (String.length "webpack-internal:///./").
  rewrite drop_append, Hw, Hf. reflexivity.
Qed.

(** X9.  The loader-prefix rewrites only ever remove a prefix.  A name
    that begins with neither [webpack-internal:///] nor [file://] is
    left as it is; [file://] is removed from the front of any name; and
    [webpack-internal:///./] and [webpack-internal:///] (the latter when
    [./] does not follow) are removed from the front of a name whose
    rest begins with none of the prefixes. *)
Theorem strip_loader_prefixes_spec :
  forall s : string,
    (exists n, strip_loader_prefixes s = JSString.drop n s)
    /\ (String.prefix "webpack-internal:///" s = false ->
        String.prefix "file://" s = false ->
        strip_loader_prefixes s = s)
    /\ strip_loader_prefixes ("file://" ++ s) = s
    /\ (String.prefix "webpack-internal:///" s = false ->
        String.prefix "file://" s = false ->
        strip_loader_prefixes ("webpack-internal:///./" ++ s) = s
        /\ (String.prefix "./" s = false ->
            strip_loader_prefixes ("webpack-internal:///" ++ s) = s)).
Proof.
  intro s.
  split; [| split; [apply strip_loader_prefixes_plain | split]].
  - rewrite strip_loader_prefixes_unfold. cbv zeta.
    destruct (String.prefix "webpack-internal:///./" s).
    + destruct (String.prefix "webpack-internal:///" (JSString.drop 22 s)).
      * destruct (String.prefix "file://" _);
          rewrite !drop_drop; eexists; reflexivity.
      * destruct (String.prefix "file://" _);
          rewrite ?drop_drop; eexists; reflexivity.
    + destruct (String.prefix "webpack-internal:///" s).
      * destruct (String.prefix "file://" _);
          rewrite ?drop_drop; eexists; reflexivity.
      * destruct (String.prefix "file://" s);
          [exists 7 | exists 0; rewrite drop_0]; reflexivity.
  - apply strip_loader_prefixes_file.
  - intros Hw Hf. split.
    + apply strip_loader_prefixes_webpack_dot; assumption.
    + intro Hdot. rewrite strip_loader_prefixes_unfold.
      destruct (String.prefix "webpack-internal:///./"
                  ("webpack-internal:///" ++ s)) eqn:E.
      * apply (prefix_append_same "webpack-internal:///" s) in E;
          [| cbn; lia].
        cbn [String.length JSString.drop] in E. congruence.
      * cbv zeta. rewrite (prefix_append "webpack-internal:///" s).
        change 20 with (String.length "webpack-internal:///").
        rewrite drop_append, Hf. reflexivity.
Qed.

Lemma strip_loader_prefixes_spec_witness :
  strip_loader_prefixes "/home/user/project/lib/x.ts"
  = "/home/user/project/lib/x.ts"
  /\ strip_loader_prefixes "webpack-internal:///./lib/x.ts" = "lib/x.ts"
  /\ strip_loader_prefixes "webpack-internal:///(rsc)/lib/x.ts"
     = "(rsc)/lib/x.ts".
Proof.
  split; [| split].
  - apply (proj1 (proj2 (strip_loader_prefixes_spec
                           "/home/user/project/lib/x.ts"))); reflexivity.
  - apply (proj1 (proj2 (proj2 (proj2 (strip_loader_prefixes_spec
                                         "lib/x.ts"))) eq_refl eq_refl)).
  - apply (proj2 (proj2 (proj2 (proj2 (strip_loader_prefixes_spec
                                         "(rsc)/lib/x.ts"))) eq_refl eq_refl)).
    reflexivity.
Defined.

Lemma http_has_no_loader_prefix (url : string) :
  JSString.startsWith url "http" = true ->
  strip_loader_prefixes url = url.
Proof.
  unfold JSString.startsWith. intro H.
  destruct url as [| x url]; [discriminate |].
  rewrite prefix_cons in H.
  destruct (Ascii.eqb_spec x "h"%char) as [-> | _]; [| discriminate].
  apply strip_loader_prefixes_plain; rewrite prefix_cons; reflexivity.
Qed.

(** X10.  For a name that starts with [http], the loader-prefix rewrites
    do nothing and the URL branch decides: when the parser throws, the
    name goes on unchanged to the project-root match; when it returns a
    path, the path replaces the name, without its leading
    [/_next/static/chunks/] when it has one. *)
Theorem normalize_url_branch :
  forall (parse : string -> option string) (url : string),
    JSString.startsWith url "http" = true ->
    (parse url = None ->
     normalizeFileName parse url = project_relative url)
    /\ (forall rest,
           parse url = Some ("/_next/static/chunks/" ++ rest) ->
           normalizeFileName parse url = project_relative rest)
    /\ (forall path,
           parse url = Some path ->
           String.prefix "/_next/static/chunks/" path = false ->
           normalizeFileName parse url = project_relative path).
Proof.
  intros parse url Hhttp.
  unfold normalizeFileName, strip_url.
  rewrite (http_has_no_loader_prefix url Hhttp), Hhttp.
  unfold re_next_chunks.
  split; [| split].
  - intros ->. reflexivity.
  - intros rest ->. rewrite replace_anchored.
    rewrite (prefix_append "/_next/static/chunks/" rest).
    now rewrite (drop_append "/_next/static/chunks/" rest).
  - intros path -> Hno. rewrite replace_anchored, Hno. reflexivity.
Qed.

Lemma normalize_url_branch_witness :
  normalizeFileName (fun _ => None) "httpd.conf" = "httpd.conf"
  /\ normalizeFileName PlainURL.pathname
       "http://localhost:3000/_next/static/chunks/pages/index.js"
     = "pages/index.js".
Proof.
  split.
  - apply (proj1 (normalize_url_branch (fun _ => None) "httpd.conf"
                    eq_refl) eq_refl).
  - apply (proj1 (proj2 (normalize_url_branch PlainURL.pathname
                           "http://localhost:3000/_next/static/chunks/pages/index.js"
                           eq_refl)) "pages/index.js" eq_refl).
Defined.

(** X11.  Normalization gives a path that is independent of the build
    machine: for a name [p ++ c ++ g] that does not start with [http] or
    a loader prefix, where [g] begins with a known directory, has no
    line terminator and is in project-relative form, the bare name, its
    [file://] form and its [webpack-internal:///./] form all normalize
    to [g], whatever the one-line prefix [p] and the URL parser. *)
Theorem normalize_machine_independent :
  forall (parse : string -> option string) (p g : string) (c : ascii),
    JSString.startsWith (p ++ String c g) "http" = false ->
    String.prefix "webpack-internal:///" (p ++ String c g) = false ->
    String.prefix "file://" (p ++ String c g) = false ->
    single_line p = true ->
    is_sep c = true ->
    starts_at_root g = true ->
    single_line g = true ->
    project_relative g = g ->
    normalizeFileName parse (p ++ String c g) = g
    /\ normalizeFileName parse ("file://" ++ p ++ String c g) = g
    /\ normalizeFileName parse ("webpack-internal:///./" ++ p ++ String c g)
       = g.
Proof.
  intros parse p g c Hhttp Hw Hf Hp Hc Hroot Hline Hfixed.
  unfold normalizeFileName.
  rewrite strip_loader_prefixes_file.
  rewrite (strip_loader_prefixes_webpack_dot _ Hw Hf).
  rewrite (strip_loader_prefixes_plain _ Hw Hf).
  unfold strip_url. rewrite Hhttp.
  rewrite (project_relative_prefix p g c Hp Hc Hroot Hline Hfixed).
  repeat split.
Qed.

Lemma normalize_machine_independent_witness :
  normalizeFileName PlainURL.pathname
    "/home/alice/work/app/components/ui/Button.tsx"
  = "components/ui/Button.tsx"
  /\ normalizeFileName PlainURL.pathname
       "file:///home/alice/work/app/components/ui/Button.tsx"
     = "components/ui/Button.tsx"
  /\ normalizeFileName PlainURL.pathname
       "webpack-internal:///.//home/alice/work/app/components/ui/Button.tsx"
     = "components/ui/Button.tsx".
Proof.
  apply (normalize_machine_independent PlainURL.pathname
           "/home/alice/work/app" "components/ui/Button.tsx" "/"%char);
    reflexivity.
Defined.

(** ** The cost and the footprint of a call *)

Section Footprint.

Variable w : World.

Lemma getCallerLocation_captures (from : option string) (st : Machine) :
  stack_captures (events (snd (getCallerLocation from w st)))
  = stack_captures (events st) + (if isDev (this st) then 1 else 0).
Proof.
  unfold stack_captures.
  destruct (isDev (this st)) eqn:Hdev.
  - unfold getCallerLocation.
    cbv beta delta [bind get_this ret]. cbn beta iota zeta.
    rewrite Hdev. cbn [negb].
    pose proof (resolve_from_stack_cases w st) as H.
    destruct (StackTrace_get_result w (events st)) as [e | frames].
    + rewrite H. cbn [snd].
      rewrite count_emit_other by reflexivity.
      rewrite count_emit_one by reflexivity. lia.
    + destruct (nth_error frames caller_depth); rewrite H; cbn [snd];
        rewrite count_emit_one by reflexivity; lia.
  - rewrite (getCallerLocation_production w from st Hdev). cbn [snd]. lia.
Qed.

(** After the resolver, the dispatcher records console calls and
    submissions only. *)
Lemma log_tail_quiet (f : Event -> bool) (level message : string)
      (from : option string) (st : Machine) :
  (forall c args, f (ConsoleCall c args) = false) ->
  (forall cmd args, f (Invoke cmd args) = false) ->
  length (filter f (events (snd (log level message from w st))))
  = length (filter f (events (snd (getCallerLocation from w st)))).
Proof.
  intros Hconsole Hinvoke.
  destruct (getCallerLocation_returns w from st) as (location & st1 & Hloc).
  rewrite (log_after_resolver w level message from st Hloc), Hloc.
  cbn [snd].
  destruct (custom_console level) as [c | m |]; cbn [call].
  - unfold console.
    destruct (invoke_result w _ "log_frontend_message"
                (LogArgs level message location)); cbn [snd];
      rewrite ?count_emit_other by (apply Hconsole || apply Hinvoke);
      reflexivity.
  - destruct (needs_receiver m); unfold throw, ret; [reflexivity |].
    destruct (invoke_result w _ "log_frontend_message"
                (LogArgs level message location)); cbn [snd];
      rewrite ?count_emit_other by (apply Hconsole || apply Hinvoke);
      reflexivity.
  - reflexivity.
Qed.

Lemma run_call_captures (c : Call) (st : Machine) :
  stack_captures (events (snd (run_call c w st)))
  = stack_captures (events st)
    + (if isDev (this st) && is_log_call c then 1 else 0).
Proof.
  destruct c as [| level message from]; cbn [run_call is_log_call].
  - rewrite andb_false_r, Nat.add_0_r. unfold stack_captures.
    rewrite init_cases.
    destruct (initialized (this st)); [reflexivity |].
    destruct (negb (window_defined w)); [reflexivity |].
    cbv zeta.
    destruct (invoke_result w (events st) "init_logger_cmd" (init_request w));
      cbn [snd].
    + now rewrite !count_emit_other by reflexivity.
    + rewrite count_emit_other by reflexivity.
      unfold mark_initialized.
      change (events {| this := _; events := ?t |}) with t.
      now rewrite count_emit_other by reflexivity.
  - rewrite andb_true_r. unfold stack_captures at 1.
    rewrite (log_tail_quiet is_stack_capture level message from st)
      by reflexivity.
    apply getCallerLocation_captures.
Qed.

End Footprint.

(** X12.  The stack is captured once per log call in development and
    never in production: after any sequence of calls on an instance,
    the number of captures has grown by the number of log calls in the
    sequence when the instance is in development mode, and not at all
    otherwise, whatever the levels, labels and answers of the host. *)
Theorem stack_captured_once_per_log :
  forall (w : World) (calls : list Call) (st : Machine),
    stack_captures (events (run_calls calls w st))
    = stack_captures (events st)
      + (if isDev (this st) then length (filter is_log_call calls) else 0).
Proof.
  intros w calls. induction calls as [| c calls IH]; intro st.
  - cbn. destruct (isDev (this st)); lia.
  - cbn [run_calls filter]. rewrite IH, run_call_captures.
    assert (Hdev : isDev (this (snd (run_call c w st))) = isDev (this st)).
    { destruct c as [| level message from]; cbn [run_call].
      - apply init_isDev.
      - now rewrite log_this. }
    rewrite Hdev.
    destruct (isDev (this st)), (is_log_call c); cbn; lia.
Qed.

(** ** The flag and the log path *)

Section FlagAndLog.

Variable w : World.

Lemma resolve_from_stack_flag (b : bool) (st : Machine) :
  resolve_from_stack w (with_initialized b st)
  = (fst (resolve_from_stack w st),
     with_initialized b (snd (resolve_from_stack w st))).
Proof.
  pose proof (resolve_from_stack_cases w st) as H.
  pose proof (resolve_from_stack_cases w (with_initialized b st)) as Hb.
  cbn [with_initialized events] in Hb.
  destruct (StackTrace_get_result w (events st)) as [e | frames].
  - rewrite H, Hb. reflexivity.
  - destruct (nth_error frames caller_depth); rewrite H, Hb; reflexivity.
Qed.

Lemma getCallerLocation_flag (b : bool) (from : option string)
      (st : Machine) :
  getCallerLocation from w (with_initialized b st)
  = (fst (getCallerLocation from w st),
     with_initialized b (snd (getCallerLocation from w st))).
Proof.
  unfold getCallerLocation.
  cbv beta delta [bind get_this ret]. cbn beta iota zeta.
  cbn [with_initialized this isDev].
  destruct (isDev (this st)); cbn [negb].
  - rewrite resolve_from_stack_flag.
    destruct (resolve_from_stack w st) as [[[location |] | e] st'];
      reflexivity.
  - destruct (truthy from); reflexivity.
Qed.

Lemma log_flag (b : bool) (level message : string) (from : option string)
      (st : Machine) :
  log level message from w (with_initialized b st)
  = (fst (log level message from w st),
     with_initialized b (snd (log level message from w st))).
Proof.
  destruct (getCallerLocation_returns w from st) as (location & st1 & Hloc).
  pose proof (getCallerLocation_flag b from st) as Hb.
  rewrite Hloc in Hb. cbn [fst snd] in Hb.
  rewrite (log_after_resolver w level message from st Hloc).
  rewrite (log_after_resolver w level message from _ Hb).
  destruct (custom_console level) as [c | m |]; cbn [call].
  - unfold console. cbn [with_initialized emit events].
    destruct (invoke_result w _ "log_frontend_message"
                (LogArgs level message location)); reflexivity.
  - destruct (needs_receiver m); unfold throw, ret; [reflexivity |].
    cbn [with_initialized emit events].
    destruct (invoke_result w _ "log_frontend_message"
                (LogArgs level message location)); reflexivity.
  - reflexivity.
Qed.

End FlagAndLog.

(** X13.  Logging does not look at the initialization flag: on two
    instances that differ in the flag only, [log] ends the same way,
    records the same events and leaves each flag as it was.  A failed
    or skipped initialization therefore changes nothing about later
    log calls. *)
Theorem log_ignores_initialized :
  forall (w : World) (st : Machine) (b : bool) (level message : string)
         (from : option string),
    fst (log level message from w (with_initialized b st))
    = fst (log level message from w st)
    /\ events (snd (log level message from w (with_initialized b st)))
       = events (snd (log level message from w st))
    /\ initialized
         (this (snd (log level message from w (with_initialized b st))))
       = b.
Proof.
  intros w st b level message from.
  rewrite (log_flag w b level message from st). repeat split.
Qed.

(** X14.  Every call of a public level method attempts exactly one
    submission, and none sends the configuration command: after a
    sequence of public calls the number of [log_frontend_message]
    invocations has grown by the length of the sequence, whatever the
    backend answered; and on an instance made by the constructor the
    configuration command has been sent once if the host has a window
    and never if it has none. *)
Theorem one_submission_per_public_call :
  forall (w : World) (calls : list (Severity * string * option string))
         (st : Machine),
    invocations "log_frontend_message"
      (events (run_calls (map public_call calls) w st))
    = invocations "log_frontend_message" (events st) + length calls
    /\ invocations "init_logger_cmd"
         (events (run_calls (map public_call calls) w (new_LoggerService w)))
       = if window_defined w then 1 else 0.
Proof.
  intros w calls.
  assert (Hsub : forall st,
             invocations "log_frontend_message"
               (events (run_calls (map public_call calls) w st))
             = invocations "log_frontend_message" (events st)
               + length calls).
  { induction calls as [| [[s message] from] calls IH]; intro st.
    - cbn. lia.
    - cbn [map run_calls public_call run_call length]. rewrite IH.
      destruct (log_bound w (level_of s) message from st
                  (custom_console_of_severity s))
        as (location & st1 & Hloc & Hlog).
      cbv zeta in Hlog. rewrite Hlog. cbn [snd].
      pose proof (getCallerLocation_quiet w
                    (is_invoke_of "log_frontend_message")
                    from st eq_refl (fun _ => eq_refl)) as Hquiet.
      rewrite Hloc in Hquiet. cbn [snd] in Hquiet.
      unfold invocations.
      destruct (invoke_result w _ "log_frontend_message"
                  (LogArgs (level_of s) message location)).
      + rewrite count_emit_other by reflexivity.
        rewrite count_emit_one by reflexivity.
        rewrite count_emit_other by reflexivity. lia.
      + rewrite count_emit_one by reflexivity.
        rewrite count_emit_other by reflexivity. lia. }
  assert (Hcfg : forall st,
             invocations "init_logger_cmd"
               (events (run_calls (map public_call calls) w st))
             = invocations "init_logger_cmd" (events st)).
  { clear Hsub.
    induction calls as [| [[s message] from] calls IH]; intro st.
    - reflexivity.
    - cbn [map run_calls public_call run_call]. rewrite IH.
      exact (proj1 (log_not_init w (level_of s) message from st)). }
  intro st. split; [apply Hsub |].
  rewrite Hcfg. unfold new_LoggerService. rewrite init_cases.
  cbn [this initialized events].
  destruct (window_defined w); cbn [negb]; [| reflexivity].
  cbv zeta.
  destruct (invoke_result w [] "init_logger_cmd" (init_request w));
    reflexivity.
Qed.

(** ** The level strings that go wrong *)

Section Levels.

(** The handler of a level, by the level's membership in the two
    lists. *)
Lemma custom_console_cases (level : string) :
  match custom_console level with
  | Bound _ => ~ In level throwing_levels /\ ~ In level silent_levels
  | Inherited f =>
      if needs_receiver f
      then In level throwing_levels
      else In level silent_levels /\ ~ In level throwing_levels
  | ObjectPrototype => In level throwing_levels
  end.
Proof.
  unfold custom_console, console_map, console_map_own,
    Object_prototype_method.
  repeat match goal with
         | |- context [String.eqb level ?k] =>
             destruct (String.eqb_spec level k) as [-> | ?];
             [cbn; intuition discriminate |]
         end.
  cbn. intuition congruence.
Qed.

Variable w : World.

Lemma log_outcome (level message : string) (from : option string)
      (st : Machine) :
  fst (log level message from w st)
  = match custom_console level with
    | Bound _ => Returned tt
    | Inherited f =>
        if needs_receiver f
        then Thrown (TypeError "Cannot convert undefined or null to object")
        else Returned tt
    | ObjectPrototype => Thrown (TypeError "custom_console is not a function")
    end.
Proof.
  destruct (getCallerLocation_returns w from st) as (location & st1 & Hloc).
  rewrite (log_after_resolver w level message from st Hloc).
  destruct (custom_console level) as [c | f |]; cbn [call].
  - unfold console.
    destruct (invoke_result w _ "log_frontend_message"
                (LogArgs level message location)); reflexivity.
  - destruct (needs_receiver f); unfold throw, ret; [reflexivity |].
    destruct (invoke_result w _ "log_frontend_message"
                (LogArgs level message location)); reflexivity.
  - reflexivity.
Qed.

End Levels.

(** X15.  The level strings at which [log] throws are exactly the nine
    of [throwing_levels]: the names of the functions of
    [Object.prototype] that need a receiver, and [__proto__].  At every
    other level string it returns, whatever the message, the label and
    the answers of the host; and the handler chosen at lines 96-97 is a
    console primitive exactly when the level is neither one of these
    nine nor one of the three of [silent_levels]. *)
Theorem log_throws_exactly_at :
  forall (w : World) (st : Machine) (level message : string)
         (from : option string),
    ((exists e, fst (log level message from w st) = Thrown e)
     <-> In level throwing_levels)
    /\ (fst (log level message from w st) = Returned tt
        <-> ~ In level throwing_levels)
    /\ ((exists c, custom_console level = Bound c)
        <-> ~ In level throwing_levels /\ ~ In level silent_levels).
Proof.
  intros w st level message from.
  rewrite (log_outcome w level message from st).
  pose proof (custom_console_cases level) as H.
  destruct (custom_console level) as [c | f |].
  - split; [| split]; split; try tauto.
    + intros [e He]. discriminate.
    + intros _. eexists. reflexivity.
  - destruct (needs_receiver f).
    + split; [| split]; split; try tauto.
      * intros _. eexists. reflexivity.
      * discriminate.
      * intros [c Hc]. discriminate.
    + split; [| split]; split; try tauto.
      * intros [e He]. discriminate.
      * intros [c Hc]. discriminate.
  - split; [| split]; split; try tauto.
    + intros _. eexists. reflexivity.
    + discriminate.
    + intros [c Hc]. discriminate.
Qed.

Lemma log_throws_exactly_at_witness :
  (exists e,
      fst (log "valueOf" "Saved" None
             (Examples.host "production") (Examples.ready false))
      = Thrown e)
  /\ fst (log "verbose" "Saved" None
            (Examples.host "production") (Examples.ready false))
     = Returned tt.
Proof.
  split.
  - apply (proj1 (log_throws_exactly_at
                    (Examples.host "production") (Examples.ready false)
                    "valueOf" "Saved" None)).
    cbn. tauto.
  - apply (proj1 (proj2 (log_throws_exactly_at
                           (Examples.host "production")
                           (Examples.ready false)
                           "verbose" "Saved" None))).
    cbn. intuition discriminate.
Defined.

(** ** Hosts without the command channel *)

(** X16.  On a host without a window the constructor and every later
    call of [init] do nothing: after any sequence of calls the flag is
    still false, no configuration command has been sent and no
    confirmation printed, while log calls go on as on any host. *)
Theorem no_window_never_configures :
  forall (w : World) (calls : list Call),
    window_defined w = false ->
    events (new_LoggerService w) = []
    /\ initialized (this (run_calls calls w (new_LoggerService w))) = false
    /\ invocations "init_logger_cmd"
         (events (run_calls calls w (new_LoggerService w))) = 0
    /\ confirmations (events (run_calls calls w (new_LoggerService w))) = 0.
Proof.
  intros w calls Hwindow.
  assert (Hnew : new_LoggerService w
                 = {| this := {| initialized := false;
                                 isDev := isDev (this (new_LoggerService w)) |};
                      events := [] |}).
  { unfold new_LoggerService. rewrite init_cases. cbn [this initialized].
    rewrite Hwindow. reflexivity. }
  split; [now rewrite Hnew |].
  assert (Hinv : forall st,
             initialized (this st) = false ->
             initialized (this (run_calls calls w st)) = false
             /\ invocations "init_logger_cmd" (events (run_calls calls w st))
                = invocations "init_logger_cmd" (events st)
             /\ confirmations (events (run_calls calls w st))
                = confirmations (events st)).
  { clear Hnew. induction calls as [| c calls IH]; intros st Hst.
    - auto.
    - cbn [run_calls].
      assert (Hstep : initialized (this (snd (run_call c w st))) = false
                      /\ invocations "init_logger_cmd"
                           (events (snd (run_call c w st)))
                         = invocations "init_logger_cmd" (events st)
                      /\ confirmations (events (snd (run_call c w st)))
                         = confirmations (events st)).
      { destruct c as [| level message from]; cbn [run_call].
        - rewrite init_cases, Hst, Hwindow. auto.
        - rewrite log_this. split; [exact Hst |]. apply log_not_init. }
      destruct Hstep as (Hflag & Hcmd & Hconf).
      destruct (IH _ Hflag) as (Hflag' & Hcmd' & Hconf').
      rewrite Hcmd', Hconf'. auto. }
  rewrite Hnew.
  destruct (Hinv {| this := {| initialized := false;
                               isDev := isDev (this (new_LoggerService w)) |};
                    events := [] |} eq_refl) as (Hflag & Hcmd & Hconf).
  rewrite Hcmd, Hconf. auto.
Qed.

Lemma no_window_never_configures_witness :
  initialized
    (this (run_calls [call_init; call_log "info" "Saved" None; call_init]
             {| NODE_ENV := Some "production";
                window_defined := false;
                LOGGER_SETTINGS := Examples.settings;
                StackTrace_get_result := fun _ => inr Examples.frames;
                invoke_result := fun _ _ _ => None;
                URL_pathname := PlainURL.pathname |}
             (new_LoggerService
                {| NODE_ENV := Some "production";
                   window_defined := false;
                   LOGGER_SETTINGS := Examples.settings;
                   StackTrace_get_result := fun _ => inr Examples.frames;
                   invoke_result := fun _ _ _ => None;
                   URL_pathname := PlainURL.pathname |})))
  = false.
Proof.
  apply (proj1 (proj2 (no_window_never_configures
                         {| NODE_ENV := Some "production";
                            window_defined := false;
                            LOGGER_SETTINGS := Examples.settings;
                            StackTrace_get_result :=
                              fun _ => inr Examples.frames;
                            invoke_result := fun _ _ _ => None;
                            URL_pathname := PlainURL.pathname |}
                         [call_init; call_log "info" "Saved" None; call_init]
                         eq_refl))).
Defined.

(** ** What a call of a level method records *)

(** X17.  A caller frame without a file name (absent or empty) is
    reported in development as [unknown] followed by a colon and the
    line, whatever the label and the URL parser of the host. *)
Theorem missing_file_name_is_unknown :
  forall (w : World) (st : Machine) (from : option string)
         (frames : list StackFrame) (frame : StackFrame),
    isDev (this st) = true ->
    StackTrace_get_result w (events st) = inr frames ->
    nth_error frames caller_depth = Some frame ->
    fileName frame = None \/ fileName frame = Some "" ->
    fst (getCallerLocation from w st)
    = Returned ("unknown:" ++ line_or_question (lineNumber frame)).
Proof.
  intros w st from frames frame Hdev Hframes Hframe Hname.
  pose proof (resolve_from_stack_cases w st) as H.
  rewrite Hframes, Hframe in H.
  unfold getCallerLocation.
  cbv beta delta [bind get_this ret]. cbn beta iota zeta.
  rewrite Hdev. cbn [negb]. rewrite H. cbn [fst].
  destruct Hname as [-> | ->]; reflexivity.
Qed.

Lemma missing_file_name_is_unknown_witness :
  fst (getCallerLocation (Some "profile-form")
         {| NODE_ENV := Some "development";
            window_defined := true;
            LOGGER_SETTINGS := Examples.settings;
            StackTrace_get_result :=
              fun _ => inr (repeat {| fileName := None;
                                      lineNumber := Some 7%N |} 4);
            invoke_result := fun _ _ _ => None;
            URL_pathname := PlainURL.pathname |}
         (Examples.ready true))
  = Returned "unknown:7".
Proof.
  apply (missing_file_name_is_unknown
           {| NODE_ENV := Some "development";
              window_defined := true;
              LOGGER_SETTINGS := Examples.settings;
              StackTrace_get_result :=
                fun _ => inr (repeat {| fileName := None;
                                        lineNumber := Some 7%N |} 4);
              invoke_result := fun _ _ _ => None;
              URL_pathname := PlainURL.pathname |}
           (Examples.ready true) (Some "profile-form")
           (repeat {| fileName := None; lineNumber := Some 7%N |} 4)
           {| fileName := None; lineNumber := Some 7%N |});
    try reflexivity.
  left. reflexivity.
Defined.

(** X18.  In production a call of a level method records exactly this,
    in this order: the console line on the primitive of the level, the
    submission of the record whose location is the label when one was
    supplied (present and not empty) and [unknown] otherwise, and, only
    when the submission is rejected, one [console.error] line with the
    error.  It returns, and the instance is left as it was. *)
Theorem production_call_trace :
  forall (w : World) (st : Machine) (s : Severity) (message : string)
         (from : option string),
    isDev (this st) = false ->
    let line := console_line (level_of s) message from in
    let record := LogArgs (level_of s) message (or_else from "unknown") in
    let printed := (events st ++ [ConsoleCall (console_of s) [AStr line]])%list in
    level_method s message from w st
    = (Returned tt,
       {| this := this st;
          events :=
            (printed
             ++ Invoke "log_frontend_message" record
             :: match invoke_result w printed "log_frontend_message" record
                with
                | None => []
                | Some e =>
                    [ConsoleCall console_error
                       [AStr "Failed to send log to backend:"; AErr e]]
                end)%list |}).
Proof.
  intros w st s message from Hprod line record printed.
  rewrite level_method_is_log.
  rewrite (log_after_resolver w (level_of s) message from st
             (getCallerLocation_production w from st Hprod)).
  rewrite custom_console_of_severity. cbn [call]. unfold console, emit.
  cbn [events this]. fold line. fold printed. fold record.
  destruct (invoke_result w printed "log_frontend_message" record);
    cbn [events this]; rewrite <- ?app_assoc; reflexivity.
Qed.

Lemma production_call_trace_witness :
  info "Saved" (Some "profile-form")
    (Examples.host "production") (Examples.ready false)
  = (Returned tt,
     {| this := this (Examples.ready false);
        events :=
          [ConsoleCall console_info [AStr "[INFO] [profile-form] Saved"];
           Invoke "log_frontend_message"
             (LogArgs "info" "Saved" "profile-form")] |}).
Proof.
  apply (production_call_trace
           (Examples.host "production") (Examples.ready false)
           sev_info "Saved" (Some "profile-form") eq_refl).
Defined.

(** X19.  In development a call of a level method records exactly this,
    in this order: the stack capture; a [console.warn] line when the
    capture threw; the console line on the primitive of the level, which
    shows the label as supplied; the submission of the record, whose
    location is the one derived from the caller's frame when there is
    such a frame and the label or [unknown] otherwise; and one
    [console.error] line when the submission is rejected.  The label,
    when a frame is found, reaches the console but not the backend. *)
Theorem development_call_trace :
  forall (w : World) (st : Machine) (s : Severity) (message : string)
         (from : option string),
    isDev (this st) = true ->
    let location :=
      match StackTrace_get_result w (events st) with
      | inl _ => or_else from "unknown"
      | inr frames =>
          match nth_error frames caller_depth with
          | Some frame =>
              normalizeFileName (URL_pathname w)
                (or_else (fileName frame) "unknown")
              ++ ":" ++ line_or_question (lineNumber frame)
          | None => or_else from "unknown"
          end
      end in
    let resolved :=
      (events st
       ++ StackTraceGet
       :: match StackTrace_get_result w (events st) with
          | inl e =>
              [ConsoleCall console_warn
                 [AStr "Failed to resolve stack trace:"; AErr e]]
          | inr _ => []
          end)%list in
    let line := console_line (level_of s) message from in
    let record := LogArgs (level_of s) message location in
    let printed :=
      (resolved ++ [ConsoleCall (console_of s) [AStr line]])%list in
    level_method s message from w st
    = (Returned tt,
       {| this := this st;
          events :=
            (printed
             ++ Invoke "log_frontend_message" record
             :: match invoke_result w printed "log_frontend_message" record
                with
                | None => []
                | Some e =>
                    [ConsoleCall console_error
                       [AStr "Failed to send log to backend:"; AErr e]]
                end)%list |}).
Proof.
  intros w st s message from Hdev location resolved line record printed.
  assert (Hloc : getCallerLocation from w st
                 = (Returned location,
                    {| this := this st; events := resolved |})).
  { unfold getCallerLocation.
    cbv beta delta [bind get_this ret]. cbn beta iota zeta.
    rewrite Hdev. cbn [negb].
    pose proof (resolve_from_stack_cases w st) as H.
    unfold location, resolved.
    destruct (StackTrace_get_result w (events st)) as [e | frames].
    - rewrite H. unfold emit. cbn [events this].
      now rewrite <- app_assoc.
    - destruct (nth_error frames caller_depth); rewrite H; reflexivity. }
  rewrite level_method_is_log.
  rewrite (log_after_resolver w (level_of s) message from st Hloc).
  rewrite custom_console_of_severity. cbn [call]. unfold console, emit.
  cbn [events this]. fold line. fold printed. fold record.
  destruct (invoke_result w printed "log_frontend_message" record);
    cbn [events this]; rewrite <- ?app_assoc; reflexivity.
Qed.

Lemma development_call_trace_witness :
  info "Saved" (Some "profile-form")
    (Examples.host "development") (Examples.ready true)
  = (Returned tt,
     {| this := this (Examples.ready true);
        events :=
          [StackTraceGet;
           ConsoleCall console_info [AStr "[INFO] [profile-form] Saved"];
           Invoke "log_frontend_message"
             (LogArgs "info" "Saved" "components/Button.tsx:42")] |}).
Proof.
  apply (development_call_trace
           (Examples.host "development") (Examples.ready true)
           sev_info "Saved" (Some "profile-form") eq_refl).
Defined.
